(** * Maya: session event reducer and asset-generator retry pipeline

    A shallow embedding of

    - [handleEvent] of the frontend's [GameContext] provider (the reducer
      that folds server-sent events into the UI state),
    - [retryWithBackoff], [calculateWaitTime] and [logOperation] of the
      game-asset MCP server, in both of its copies (the single-file
      [index.js] and the modular [src/utils.js] + [src/logger.js]),
    - [detectSpaceType] of [src/spaceTypes.js],

    followed by the properties established about them.

    JavaScript strings are sequences of UTF-16 code units; they are modelled
    as [list N].  JavaScript numbers are modelled as [Z] where the code
    computes with integers (doubles are exact on integers of magnitude
    below 2^53), and as [Q] for the one quotient it stores. *)

From Stdlib Require Import ZArith NArith List String Ascii Bool Lia.
From Stdlib Require Import DecimalString QArith_base.
From stdpp Require Import gmap.
Import ListNotations.

Local Open Scope N_scope.

(* ===================================================================== *)
(** ** JavaScript strings *)
(* ===================================================================== *)

Module JsString.

Definition jschar := N.
Definition jsstring := list N.

(** An ASCII literal as a JavaScript string. *)
Definition str (s : string) : jsstring :=
  List.map N_of_ascii (list_ascii_of_string s).

Fixpoint str_eqb (a b : jsstring) : bool :=
  match a, b with
  | [], [] => true
  | x :: a', y :: b' => (x =? y) && str_eqb a' b'
  | _, _ => false
  end.

(** [Array.prototype.includes] on an array of strings. *)
Definition arr_includes (l : list jsstring) (x : jsstring) : bool :=
  existsb (str_eqb x) l.

(** ECMAScript LineTerminator: LF, CR, LS, PS. *)
Definition isLineTerminator (c : jschar) : bool :=
  (c =? 10) || (c =? 13) || (c =? 0x2028) || (c =? 0x2029).

(** ECMAScript WhiteSpace and LineTerminator: what [trim] strips and what
    the regular-expression class [\s] matches. *)
Definition isWhiteSpace (c : jschar) : bool :=
  ((9 <=? c) && (c <=? 13)) || (c =? 32) || (c =? 0xA0) || (c =? 0x1680)
  || ((0x2000 <=? c) && (c <=? 0x200A))
  || (c =? 0x2028) || (c =? 0x2029) || (c =? 0x202F) || (c =? 0x205F)
  || (c =? 0x3000) || (c =? 0xFEFF).

Definition isDigit (c : jschar) : bool := (48 <=? c) && (c <=? 57).

(** The class [\w]. *)
Definition isWordChar (c : jschar) : bool :=
  isDigit c || ((65 <=? c) && (c <=? 90)) || ((97 <=? c) && (c <=? 122))
  || (c =? 95).

Fixpoint trimStart (s : jsstring) : jsstring :=
  match s with
  | c :: s' => if isWhiteSpace c then trimStart s' else s
  | [] => []
  end.

Definition trimEnd (s : jsstring) : jsstring := rev (trimStart (rev s)).

Definition trim (s : jsstring) : jsstring := trimEnd (trimStart s).

(** Truthiness of a string: non-empty. *)
Definition truthy (s : jsstring) : bool :=
  match s with [] => false | _ :: _ => true end.

(** Truthiness of an optional string property ([undefined] is falsy). *)
Definition truthy_opt (o : option jsstring) : bool :=
  match o with Some s => truthy s | None => false end.

(** [s.split(sep)] for a one-unit separator. *)
Fixpoint split (sep : jschar) (s : jsstring) : list jsstring :=
  match s with
  | [] => [[]]
  | c :: s' =>
      if c =? sep then [] :: split sep s'
      else match split sep s' with
           | l :: ls => (c :: l) :: ls
           | [] => [[c]]
           end
  end.

Fixpoint startsWith (p s : jsstring) : bool :=
  match p, s with
  | [], _ => true
  | x :: p', y :: s' => (x =? y) && startsWith p' s'
  | _ :: _, [] => false
  end.

(** [s.includes(sub)]. *)
Fixpoint includes (s sub : jsstring) : bool :=
  startsWith sub s ||
  match s with
  | [] => false
  | _ :: s' => includes s' sub
  end.

(** [s.replace(a, b)] for one-unit string arguments: the first occurrence
    only. *)
Fixpoint replace1 (a b : jschar) (s : jsstring) : jsstring :=
  match s with
  | [] => []
  | c :: s' => if c =? a then b :: s' else c :: replace1 a b s'
  end.

(** [parseInt] on a string of decimal digits (what [(\d+)] captures). *)
Definition parseInt (s : jsstring) : Z :=
  fold_left (fun acc c => (acc * 10 + (Z.of_N c - 48))%Z) s 0%Z.

(** Number-to-string conversion of an integer, as in a template literal. *)
Definition showZ (z : Z) : jsstring :=
  str (NilEmpty.string_of_int (Z.to_int z)).

(** Upper-casing of one unit as far as ASCII goes; the regular-expression
    canonicalisation never maps a unit at or above 128 below 128, so this
    decides case-insensitive equality against an ASCII pattern unit. *)
Definition upper (c : jschar) : jschar :=
  if (97 <=? c) && (c <=? 122) then c - 32 else c.

End JsString.

Import JsString.

(* ===================================================================== *)
(** ** Regular expressions, with JavaScript's backtracking semantics *)
(* ===================================================================== *)

Module Regex.

(** The fragment the modelled code uses.  Every quantified atom in the
    source is a one-unit class ([.*], [\s+], [\d+], [\w+], [[^<]+]), so
    greedy repetition is taken over a class. *)
Inductive regex :=
  | Eps
  | Bol                              (* ^ *)
  | Chr (p : jschar -> bool)         (* one unit of a class *)
  | Rep (p : jschar -> bool)         (* p*, greedy *)
  | Cat (r1 r2 : regex)
  | Alt (r1 r2 : regex)              (* r1|r2, left first *)
  | Grp (n : nat) (r : regex).       (* capture group number n *)

Definition Plus (p : jschar -> bool) : regex := Cat (Chr p) (Rep p).
Definition Opt (r : regex) : regex := Alt r Eps.

(** A literal, case-sensitive or (flag [i]) case-insensitive. *)
Definition Lit (s : jsstring) : regex :=
  fold_right (fun c r => Cat (Chr (N.eqb c)) r) Eps s.
Definition LitI (s : jsstring) : regex :=
  fold_right (fun c r => Cat (Chr (fun x => upper x =? upper c)) r) Eps s.

Definition dot (c : jschar) : bool := negb (isLineTerminator c).

(** Captures: group number and captured text, most recent first. *)
Definition captures := list (nat * jsstring).

Fixpoint group (c : captures) (n : nat) : option jsstring :=
  match c with
  | [] => None
  | (m, s) :: c' => if Nat.eqb m n then Some s else group c' n
  end.

Fixpoint run_len (p : jschar -> bool) (s : jsstring) : nat :=
  match s with
  | c :: s' => if p c then S (run_len p s') else O
  | [] => O
  end.

Section Matcher.
Context {R : Type}.
Variable inp : jsstring.

(** Greedy repetition: the longest run first, then one unit less. *)
Fixpoint backoff (k : nat -> option R) (i n : nat) : option R :=
  match k (i + n)%nat with
  | Some r => Some r
  | None => match n with
            | O => None
            | S n' => backoff k i n'
            end
  end.

Fixpoint rmatch (r : regex) (i : nat) (c : captures)
         (k : nat -> captures -> option R) : option R :=
  match r with
  | Eps => k i c
  | Bol => if Nat.eqb i 0 then k i c else None
  | Chr p =>
      match nth_error inp i with
      | Some x => if p x then k (S i) c else None
      | None => None
      end
  | Rep p => backoff (fun j => k j c) i (run_len p (skipn i inp))
  | Cat r1 r2 => rmatch r1 i c (fun j c' => rmatch r2 j c' k)
  | Alt r1 r2 =>
      match rmatch r1 i c k with
      | Some x => Some x
      | None => rmatch r2 i c k
      end
  | Grp n r1 =>
      rmatch r1 i c
        (fun j c' => k j ((n, firstn (j - i) (skipn i inp)) :: c'))
  end.
End Matcher.

Record MatchResult := {
  m_start : nat;
  m_end : nat;
  m_caps : captures
  }.

Definition match_at (r : regex) (inp : jsstring) (i : nat)
  : option MatchResult :=
  rmatch inp r i []
    (fun j c => Some {| m_start := i; m_end := j; m_caps := c |}).

(** Leftmost match: start positions [i], [i+1], ... *)
Fixpoint search (r : regex) (inp : jsstring) (i fuel : nat)
  : option MatchResult :=
  match match_at r inp i with
  | Some m => Some m
  | None => match fuel with
            | O => None
            | S f => search r inp (S i) f
            end
  end.

(** [s.match(r)] for a regular expression without the [g] flag. *)
Definition exec (r : regex) (s : jsstring) : option MatchResult :=
  search r s 0 (length s).

Definition test (r : regex) (s : jsstring) : bool :=
  match exec r s with Some _ => true | None => false end.

(** [s.replace(r, '')] without the [g] flag: the first match is cut out. *)
Definition replace_empty (r : regex) (s : jsstring) : jsstring :=
  match exec r s with
  | Some m => firstn (m_start m) s ++ skipn (m_end m) s
  | None => s
  end.

End Regex.

Import Regex.

(* ===================================================================== *)
(** ** The session state of [GameContext] *)
(* ===================================================================== *)

Module GameCode.
(** Modelled from the spec: the interface [GameCode] is declared in
    [services/api], which is not among the sources; the spec gives the
    generated-artifact record as {html, css, js}. *)
Record t := mk { html : jsstring; css : jsstring; js : jsstring }.
End GameCode.

Inductive Phase :=
| phase_analyzing | phase_thinking | phase_outlining | phase_generating
| phase_previewing | phase_completed | phase_suggesting | phase_idle.

Module StatusBox.
Record t := mk {
  phase : Phase;
  bullets : list jsstring;
  tip : option jsstring
}.
End StatusBox.

Module Building.
Record t := mk {
  bullets : list jsstring;
  isBuilding : bool
}.
End Building.

Inductive CodeType := type_html | type_css | type_js.

Module CodeStream.
Record t := mk {
  content : jsstring;
  currentType : CodeType;
  isStreaming : bool
}.
End CodeStream.

Inductive PublisherStatus :=
| pub_idle | pub_validating | pub_preparing | pub_deploying
| pub_published | pub_error.

Module Publisher.
Record t := mk {
  status : PublisherStatus;
  liveUrl : option jsstring;
  siteName : option jsstring;
  error : option jsstring;
  isPublishing : bool
}.
End Publisher.

Inductive AssetStatus := asset_status_generating | asset_status_completed
                       | asset_status_error.

Module AssetInfo.
Record t := mk {
  filename : jsstring;
  category : jsstring;
  gcs_url : jsstring;
  preview_url : option jsstring;
  size_bytes : Z;
  timestamp : jsstring;
  status : AssetStatus
}.
End AssetInfo.

Module Progress.
Record t := mk {
  total_requested : Z;
  total_generated : Z;
  current_step : jsstring
}.
End Progress.

Module Assets.
Record t := mk {
  assets : list AssetInfo.t;
  isGenerating : bool;
  currentCategory : option jsstring;
  progress : Progress.t;
  error : option jsstring
}.
End Assets.

Inductive AgentStatus :=
| agent_idle | agent_active | agent_completed | agent_error.

Module Agent.
Record t := mk {
  status : AgentStatus;
  currentTask : jsstring;
  lastActivity : option jsstring
}.
End Agent.

Module Agents.
Record t := mk {
  orchestrator : Agent.t;
  gameCreator : Agent.t;
  assetGenerator : Agent.t;
  publisher : Agent.t
}.
End Agents.

Inductive Status :=
| status_idle | status_thinking | status_generating | status_completed
| status_error.

Inductive OperationType := game_creation | publishing | operation_idle.

Record GameState := mkGameState {
  code : option GameCode.t;
  isGenerating : bool;
  status : Status;
  error : option jsstring;
  statusBox : StatusBox.t;
  buildingStatus : Building.t;
  codeStream : CodeStream.t;
  suggestions : list jsstring;
  publisher : Publisher.t;
  operationType : OperationType;
  agents : Agents.t;
  assets : Assets.t
}.

(** The initial value given to [useState] in [GameProvider]. *)
Definition standby : Agent.t :=
  Agent.mk agent_idle (str "Standby") None.

Definition initialGameState : GameState := {|
  code := None;
  isGenerating := false;
  status := status_idle;
  error := None;
  statusBox := StatusBox.mk phase_idle [] None;
  buildingStatus := Building.mk [] false;
  codeStream := CodeStream.mk [] type_html false;
  suggestions := [];
  publisher := Publisher.mk pub_idle None None None false;
  operationType := operation_idle;
  agents := Agents.mk standby standby standby standby;
  assets := Assets.mk [] false None (Progress.mk 0 0 (str "idle")) None
|}.

(** Functional updates [{...prev, field: v}] of the top-level state. *)
Definition set_code v (s : GameState) :=
  mkGameState v (isGenerating s) (status s) (error s) (statusBox s)
    (buildingStatus s) (codeStream s) (suggestions s) (publisher s)
    (operationType s) (agents s) (assets s).
Definition set_isGenerating v (s : GameState) :=
  mkGameState (code s) v (status s) (error s) (statusBox s)
    (buildingStatus s) (codeStream s) (suggestions s) (publisher s)
    (operationType s) (agents s) (assets s).
Definition set_status v (s : GameState) :=
  mkGameState (code s) (isGenerating s) v (error s) (statusBox s)
    (buildingStatus s) (codeStream s) (suggestions s) (publisher s)
    (operationType s) (agents s) (assets s).
Definition set_error v (s : GameState) :=
  mkGameState (code s) (isGenerating s) (status s) v (statusBox s)
    (buildingStatus s) (codeStream s) (suggestions s) (publisher s)
    (operationType s) (agents s) (assets s).
Definition set_statusBox v (s : GameState) :=
  mkGameState (code s) (isGenerating s) (status s) (error s) v
    (buildingStatus s) (codeStream s) (suggestions s) (publisher s)
    (operationType s) (agents s) (assets s).
Definition set_buildingStatus v (s : GameState) :=
  mkGameState (code s) (isGenerating s) (status s) (error s) (statusBox s)
    v (codeStream s) (suggestions s) (publisher s)
    (operationType s) (agents s) (assets s).
Definition set_codeStream v (s : GameState) :=
  mkGameState (code s) (isGenerating s) (status s) (error s) (statusBox s)
    (buildingStatus s) v (suggestions s) (publisher s)
    (operationType s) (agents s) (assets s).
Definition set_suggestions v (s : GameState) :=
  mkGameState (code s) (isGenerating s) (status s) (error s) (statusBox s)
    (buildingStatus s) (codeStream s) v (publisher s)
    (operationType s) (agents s) (assets s).
Definition set_publisher v (s : GameState) :=
  mkGameState (code s) (isGenerating s) (status s) (error s) (statusBox s)
    (buildingStatus s) (codeStream s) (suggestions s) v
    (operationType s) (agents s) (assets s).
Definition set_operationType v (s : GameState) :=
  mkGameState (code s) (isGenerating s) (status s) (error s) (statusBox s)
    (buildingStatus s) (codeStream s) (suggestions s) (publisher s)
    v (agents s) (assets s).
Definition set_assets v (s : GameState) :=
  mkGameState (code s) (isGenerating s) (status s) (error s) (statusBox s)
    (buildingStatus s) (codeStream s) (suggestions s) (publisher s)
    (operationType s) (agents s) v.

(* ===================================================================== *)
(** ** Server-sent events *)
(* ===================================================================== *)

(** Payload shapes, as the casts in [handleEvent] declare them. *)
Module SessionData.
Record t := mk {
  description : jsstring;
  total_assets : Z;
  categories : list jsstring;
  session_id : option jsstring;
  user_id : option jsstring
}.
End SessionData.

Module GeneratingData.
Record t := mk {
  category : jsstring;
  prompt : option jsstring;
  status : jsstring
}.
End GeneratingData.

Module CompletedData.
Record t := mk {
  category : jsstring;
  filename : jsstring;
  gcs_url : jsstring;
  version : jsstring;
  size_bytes : Z;
  status : jsstring;
  session_id : option jsstring;
  user_id : option jsstring
}.
End CompletedData.

Module SessionCompleteData.
Record t := mk {
  total_generated : Z;
  total_requested : Z;
  assets : list (jsstring * jsstring);
  status : jsstring;
  fallback_mode : option jsstring;
  session_id : option jsstring;
  user_id : option jsstring
}.
End SessionCompleteData.

Module ErrorData.
Record t := mk {
  error : jsstring;
  category : option jsstring;
  critical : option bool
}.
End ErrorData.

Module SuccessData.
Record t := mk {
  live_url : jsstring;
  site_name : jsstring;
  message : jsstring
}.
End SuccessData.

Inductive PublishStatus := validating | preparing | deploying.

Inductive StatusPayload := thinking | generating.

(** A payload the handler inspects with [typeof event.payload === 'string']. *)
Inductive Payload :=
| PString (s : jsstring)
| PNotString.

(** Modelled from the spec: the interface [SSEEvent] is declared in
    [services/api], which is not among the sources.  The event types are the
    vocabulary of the spec's section 6, which are the cases [handleEvent]
    switches on and 'chunk'; the payloads have the shapes above. *)
Inductive SSEEvent :=
| ev_asset_session_start (p : SessionData.t)
| ev_asset_generating (p : GeneratingData.t)
| ev_asset_completed (p : CompletedData.t)
| ev_asset_session_complete (p : SessionCompleteData.t)
| ev_asset_error (p : ErrorData.t)
| ev_publish_status (p : PublishStatus)
| ev_publish_success (p : SuccessData.t)
| ev_publish_error (p : jsstring)
| ev_publish_message (p : Payload)
| ev_status (p : StatusPayload)
| ev_explanation (p : Payload)
| ev_features (p : Payload)
| ev_suggestions (p : Payload)
| ev_code_chunk (p : Payload)
| ev_command (p : Payload)
| ev_code (p : GameCode.t)
| ev_stream_complete
| ev_error (p : jsstring)
| ev_chunk (p : Payload).

(** [event.type]. *)
Definition type (e : SSEEvent) : jsstring :=
  match e with
  | ev_asset_session_start _ => str "asset_session_start"
  | ev_asset_generating _ => str "asset_generating"
  | ev_asset_completed _ => str "asset_completed"
  | ev_asset_session_complete _ => str "asset_session_complete"
  | ev_asset_error _ => str "asset_error"
  | ev_publish_status _ => str "publish_status"
  | ev_publish_success _ => str "publish_success"
  | ev_publish_error _ => str "publish_error"
  | ev_publish_message _ => str "publish_message"
  | ev_status _ => str "status"
  | ev_explanation _ => str "explanation"
  | ev_features _ => str "features"
  | ev_suggestions _ => str "suggestions"
  | ev_code_chunk _ => str "code_chunk"
  | ev_command _ => str "command"
  | ev_code _ => str "code"
  | ev_stream_complete => str "stream_complete"
  | ev_error _ => str "error"
  | ev_chunk _ => str "chunk"
  end.

(* ===================================================================== *)
(** ** The reducer: [handleEvent] *)
(* ===================================================================== *)

(** What React holds besides [gameState], and what the handler sends out:
    the [realSessionId] state cell, the events handed to [onChatEvent], and
    the number of deferred [loadSessionAssets] calls scheduled. *)
Record World := mkWorld {
  gameState : GameState;
  realSessionId : option jsstring;
  chat : list SSEEvent;
  refreshes : nat
}.

(** What the closure of [handleEvent] has captured when [generateGame] was
    called: the [realSessionId] of that render (not the cell's current
    value), the frontend [sessionId], whether an [onChatEvent] handler was
    passed; and the clock reading of [new Date().toISOString()]. *)
Record Env := mkEnv {
  captured_realSessionId : option jsstring;
  sessionId : jsstring;
  onChatEvent : bool;
  now : jsstring
}.

Definition setGameState (f : GameState -> GameState) (w : World) : World :=
  mkWorld (f (gameState w)) (realSessionId w) (chat w) (refreshes w).

Definition setRealSessionId (v : jsstring) (w : World) : World :=
  mkWorld (gameState w) (Some v) (chat w) (refreshes w).

Definition forward (env : Env) (e : SSEEvent) (w : World) : World :=
  if onChatEvent env
  then mkWorld (gameState w) (realSessionId w) (chat w ++ [e]) (refreshes w)
  else w.

Definition scheduleLoadSessionAssets (w : World) : World :=
  mkWorld (gameState w) (realSessionId w) (chat w) (S (refreshes w)).

(** [typeof p === 'string' && p.trim()]. *)
Definition nonblank_string (p : Payload) : option jsstring :=
  match p with
  | PString s => if truthy (trim s) then Some s else None
  | PNotString => None
  end.

(** Operation type detection, the first statement of [handleEvent]. *)
Definition detectOperationType (e : SSEEvent) (w : World) : World :=
  if arr_includes [str "publish_status"; str "publish_success";
                   str "publish_error"; str "publish_message"] (type e)
  then setGameState (set_operationType publishing) w
  else if arr_includes [str "status"; str "explanation"; str "code";
                        str "features"] (type e)
  then setGameState (set_operationType game_creation) w
  else if arr_includes [str "asset_session_start"; str "asset_generating";
                        str "asset_completed"; str "asset_session_complete";
                        str "asset_error"] (type e)
  then w
  else w.

Definition with_space (category : jsstring) : jsstring :=
  replace1 95 32 category.

(** The bullet markers of the [suggestions] case. *)
Definition isDashStar (c : jschar) : bool := (c =? 45) || (c =? 42).

(** [/^[-*]\s+(.+)/] and [/^\d+\.\s+(.+)/]. *)
Definition re_bullet : regex :=
  Cat Bol (Cat (Chr isDashStar) (Cat (Plus isWhiteSpace) (Grp 1 (Plus dot)))).
Definition re_numbered : regex :=
  Cat Bol (Cat (Plus isDigit) (Cat (Chr (N.eqb 46))
    (Cat (Plus isWhiteSpace) (Grp 1 (Plus dot))))).

(** [/^[-*]\s+/] and [/^\d+\.\s+/]. *)
Definition re_bullet_marker : regex :=
  Cat Bol (Cat (Chr isDashStar) (Plus isWhiteSpace)).
Definition re_numbered_marker : regex :=
  Cat Bol (Cat (Plus isDigit) (Cat (Chr (N.eqb 46)) (Plus isWhiteSpace))).

(** The body of the [for (const line of lines)] loop: what one line adds to
    [parsedSuggestions]. *)
Definition parseLine (line : jsstring) : list jsstring :=
  let trimmed := trim line in
  if test re_bullet trimmed || test re_numbered trimmed then
    let content :=
      replace_empty re_numbered_marker
        (replace_empty re_bullet_marker trimmed) in
    if truthy content then [content] else []
  else [].

Definition defaultSuggestions : list jsstring :=
  [str "Add sound effects"; str "Change colors to neon theme";
   str "Increase difficulty"; str "Add particle effects";
   str "Create power-ups"; str "Add multiplayer mode"].

Definition finalSuggestions (suggestionsText : jsstring) : list jsstring :=
  let lines := split 10 suggestionsText in
  let parsedSuggestions := flat_map parseLine lines in
  match parsedSuggestions with
  | [] => defaultSuggestions
  | _ :: _ => parsedSuggestions
  end.

(** The pictographs that open the building bullets, as UTF-16 units. *)
Definition wrench : jsstring := [0xD83D; 0xDD27].
Definition palette : jsstring := [0xD83C; 0xDFA8].
Definition bolt : jsstring := [0x26A1].
Definition gamepad : jsstring := [0xD83C; 0xDFAE].
Definition sparkles : jsstring := [0x2728].
Definition rocket : jsstring := [0xD83D; 0xDE80].
Definition checkmark : jsstring := [0x2705].

Definition allBullets : list jsstring :=
  [wrench ++ str " Setting up HTML structure";
   palette ++ str " Adding CSS styling and animations";
   bolt ++ str " Implementing game logic";
   gamepad ++ str " Setting up event handlers";
   sparkles ++ str " Adding interactive features";
   rocket ++ str " Optimizing performance"].

Definition bullet (i : nat) : jsstring := nth i allBullets [].

(** [if (!bullets.includes(b)) bullets.push(b)]. *)
Definition push_new (b : jsstring) (bullets : list jsstring) : list jsstring :=
  if arr_includes bullets b then bullets else bullets ++ [b].

(** [/<(\w+)>([^<]+)</]. *)
Definition re_command : regex :=
  Cat (Chr (N.eqb 60)) (Cat (Grp 1 (Plus isWordChar)) (Cat (Chr (N.eqb 62))
    (Cat (Grp 2 (Plus (fun c => negb (c =? 60)))) (Chr (N.eqb 60))))).

(** The state update of the [code_chunk] case. *)
Definition codeChunkUpdate (codeContent : jsstring) (prev : GameState)
  : GameState :=
  let newBuildingBullets0 :=
    if negb (Building.isBuilding (buildingStatus prev))
    then [bullet 0]
    else Building.bullets (buildingStatus prev) in
  let newBuildingBullets1 :=
    if includes codeContent (str "style") || includes codeContent (str "css")
       || includes codeContent (str "color:")
    then push_new (bullet 1) newBuildingBullets0 else newBuildingBullets0 in
  let newBuildingBullets2 :=
    if includes codeContent (str "function")
       || includes codeContent (str "const ")
       || includes codeContent (str "let ")
    then push_new (bullet 2) newBuildingBullets1 else newBuildingBullets1 in
  let newBuildingBullets :=
    if includes codeContent (str "addEventListener")
       || includes codeContent (str "keydown")
       || includes codeContent (str "click")
    then push_new (bullet 3) newBuildingBullets2 else newBuildingBullets2 in
  let codeType :=
    if includes codeContent (str "function")
       || includes codeContent (str "const ")
       || includes codeContent (str "addEventListener")
    then type_js
    else if includes codeContent (str "color:")
            || includes codeContent (str "background:")
            || includes codeContent (str "font-")
    then type_css
    else type_html in
  let isFirstChunk := negb (CodeStream.isStreaming (codeStream prev)) in
  set_codeStream
    (CodeStream.mk
       (if isFirstChunk then codeContent
        else CodeStream.content (codeStream prev) ++ codeContent)
       codeType true)
    (set_buildingStatus (Building.mk newBuildingBullets true)
       (set_statusBox
          (StatusBox.mk phase_generating
             (StatusBox.bullets (statusBox prev))
             (Some (str "Writing your game code...")))
          prev)).

(** The state update of the [code] case. *)
Definition codeUpdate (payload : GameCode.t) (prev : GameState) : GameState :=
  set_codeStream
    (CodeStream.mk (CodeStream.content (codeStream prev))
       (CodeStream.currentType (codeStream prev)) false)
    (set_buildingStatus
       (Building.mk
          [checkmark ++ str " HTML structure created";
           checkmark ++ str " CSS styling applied";
           checkmark ++ str " JavaScript logic implemented";
           checkmark ++ str " Game mechanics configured";
           checkmark ++ str " Interactive features added";
           gamepad ++ str " Game ready to play!"]
          false)
       (set_statusBox
          (StatusBox.mk phase_suggesting
             [str "Game generated successfully!";
              str "Ready for testing and modifications";
              str "Try asking for specific changes"]
             (Some (str
                "Your game is ready to play! What would you like to modify?")))
          (set_status status_completed
             (set_isGenerating false
                (set_code (Some payload) prev))))).

(** The state update of the [error] case. *)
Definition errorUpdate (payload : jsstring) (prev : GameState) : GameState :=
  set_suggestions []
    (set_codeStream (CodeStream.mk [] type_html false)
       (set_buildingStatus (Building.mk [] false)
          (set_statusBox (StatusBox.mk phase_idle [] None)
             (set_error (Some payload)
                (set_status status_error
                   (set_isGenerating false prev)))))).

Definition assetSessionStartUpdate (sessionData : SessionData.t)
  (prev : GameState) : GameState :=
  set_assets
    (Assets.mk (Assets.assets (assets prev)) true
       (Assets.currentCategory (assets prev))
       (Progress.mk (SessionData.total_assets sessionData) 0
          (str "Starting asset generation session"))
       None)
    prev.

Definition assetGeneratingUpdate (generatingData : GeneratingData.t)
  (prev : GameState) : GameState :=
  let cat := with_space (GeneratingData.category generatingData) in
  set_assets
    (Assets.mk (Assets.assets (assets prev))
       (Assets.isGenerating (assets prev))
       (Some (GeneratingData.category generatingData))
       (Progress.mk
          (Progress.total_requested (Assets.progress (assets prev)))
          (Progress.total_generated (Assets.progress (assets prev)))
          (if str_eqb (GeneratingData.status generatingData) (str "starting")
           then str "Generating " ++ cat ++ str "..."
           else str "Processing " ++ cat ++ str "..."))
       (Assets.error (assets prev)))
    prev.

Definition assetCompletedUpdate (env : Env) (completedData : CompletedData.t)
  (prev : GameState) : GameState :=
  let sessionIdToUse :=
    if truthy_opt (CompletedData.session_id completedData)
    then default [] (CompletedData.session_id completedData)
    else if truthy_opt (captured_realSessionId env)
    then default [] (captured_realSessionId env)
    else sessionId env in
  let newAsset :=
    AssetInfo.mk
      (CompletedData.filename completedData)
      (CompletedData.category completedData)
      (CompletedData.gcs_url completedData)
      (Some (str "http://localhost:8000/assets/" ++ sessionIdToUse
             ++ str "/" ++ CompletedData.filename completedData
             ++ str "/preview"))
      (CompletedData.size_bytes completedData)
      (now env)
      asset_status_completed in
  set_assets
    (Assets.mk (Assets.assets (assets prev) ++ [newAsset])
       (Assets.isGenerating (assets prev))
       (Assets.currentCategory (assets prev))
       (Progress.mk
          (Progress.total_requested (Assets.progress (assets prev)))
          (Progress.total_generated (Assets.progress (assets prev)) + 1)%Z
          (str "Completed "
           ++ with_space (CompletedData.category completedData)))
       (Assets.error (assets prev)))
    prev.

Definition assetSessionCompleteUpdate (d : SessionCompleteData.t)
  (prev : GameState) : GameState :=
  set_assets
    (Assets.mk (Assets.assets (assets prev)) false
       (Assets.currentCategory (assets prev))
       (Progress.mk
          (Progress.total_requested (Assets.progress (assets prev)))
          (SessionCompleteData.total_generated d)
          (if str_eqb (SessionCompleteData.status d) (str "completed")
           then str "Asset generation completed ("
                ++ showZ (SessionCompleteData.total_generated d) ++ str "/"
                ++ showZ (SessionCompleteData.total_requested d) ++ str ")"
           else str "Asset generation failed - using text-only mode"))
       (if str_eqb (SessionCompleteData.status d) (str "failed")
        then Some (str "Asset generation failed") else None))
    prev.

Definition assetErrorUpdate (errorData : ErrorData.t) (prev : GameState)
  : GameState :=
  set_assets
    (Assets.mk (Assets.assets (assets prev))
       (match ErrorData.critical errorData with
        | Some true => false
        | _ => Assets.isGenerating (assets prev)
        end)
       (Assets.currentCategory (assets prev))
       (Progress.mk
          (Progress.total_requested (Assets.progress (assets prev)))
          (Progress.total_generated (Assets.progress (assets prev)))
          (if truthy_opt (ErrorData.category errorData)
           then str "Error generating "
                ++ default [] (ErrorData.category errorData) ++ str ": "
                ++ ErrorData.error errorData
           else str "Asset generation error: " ++ ErrorData.error errorData))
       (Some (ErrorData.error errorData)))
    prev.

Definition publisherStatusOf (p : PublishStatus) : PublisherStatus :=
  match p with
  | validating => pub_validating
  | preparing => pub_preparing
  | deploying => pub_deploying
  end.

Definition publishStatusUpdate (publishStatus : PublishStatus)
  (prev : GameState) : GameState :=
  set_statusBox
    (StatusBox.mk
       (match publishStatus with
        | validating => phase_analyzing
        | preparing => phase_thinking
        | deploying => phase_generating
        end)
       (StatusBox.bullets (statusBox prev))
       (Some (match publishStatus with
              | validating => str "Checking if a game has been created..."
              | preparing => str "Game found! Preparing for deployment..."
              | deploying => str "Deploying to Firebase hosting..."
              end)))
    (set_publisher
       (Publisher.mk (publisherStatusOf publishStatus)
          (Publisher.liveUrl (publisher prev))
          (Publisher.siteName (publisher prev))
          None true)
       prev).

Definition publishSuccessUpdate (successData : SuccessData.t)
  (prev : GameState) : GameState :=
  set_statusBox
    (StatusBox.mk phase_completed (StatusBox.bullets (statusBox prev))
       (Some (str "Your game is now live!")))
    (set_publisher
       (Publisher.mk pub_published
          (Some (SuccessData.live_url successData))
          (Some (SuccessData.site_name successData))
          None false)
       prev).

Definition publishErrorUpdate (errorType : jsstring) (prev : GameState)
  : GameState :=
  set_statusBox
    (StatusBox.mk phase_idle (StatusBox.bullets (statusBox prev)) None)
    (set_publisher
       (Publisher.mk pub_error
          (Publisher.liveUrl (publisher prev))
          (Publisher.siteName (publisher prev))
          (Some errorType) false)
       prev).

Definition statusUpdate (p : StatusPayload) (prev : GameState) : GameState :=
  set_statusBox
    (StatusBox.mk
       (match p with thinking => phase_thinking
                   | generating => phase_generating end)
       []
       (StatusBox.tip (statusBox prev)))
    (set_status
       (match p with thinking => status_thinking
                   | generating => status_generating end)
       prev).

Definition explanationUpdate (prev : GameState) : GameState :=
  set_statusBox
    (StatusBox.mk phase_outlining (StatusBox.bullets (statusBox prev))
       (Some (str "Designing your game concept...")))
    prev.

Definition suggestionsUpdate (suggestionsText : jsstring) (prev : GameState)
  : GameState :=
  set_statusBox
    (StatusBox.mk phase_completed (StatusBox.bullets (statusBox prev))
       (Some (str "Your game is ready! Try the suggestions below.")))
    (set_suggestions (finalSuggestions suggestionsText) prev).

Definition commandUpdate (tip : jsstring) (prev : GameState) : GameState :=
  set_statusBox
    (StatusBox.mk (StatusBox.phase (statusBox prev))
       (StatusBox.bullets (statusBox prev)) (Some tip))
    prev.

(** [handleEvent], the callback [generateGame] hands to the transport. *)
Definition handleEvent (env : Env) (event : SSEEvent) (w0 : World) : World :=
  let w := detectOperationType event w0 in
  match event with
  | ev_asset_session_start sessionData =>
      let w1 :=
        if truthy_opt (SessionData.session_id sessionData)
        then setRealSessionId
               (default [] (SessionData.session_id sessionData)) w
        else w in
      setGameState (assetSessionStartUpdate sessionData) w1
  | ev_asset_generating generatingData =>
      setGameState (assetGeneratingUpdate generatingData) w
  | ev_asset_completed completedData =>
      let w1 :=
        if truthy_opt (CompletedData.session_id completedData)
           && negb (truthy_opt (captured_realSessionId env))
        then setRealSessionId
               (default [] (CompletedData.session_id completedData)) w
        else w in
      setGameState (assetCompletedUpdate env completedData) w1
  | ev_asset_session_complete d =>
      let w1 := setGameState (assetSessionCompleteUpdate d) w in
      if str_eqb (SessionCompleteData.status d) (str "completed")
         && (0 <? SessionCompleteData.total_generated d)%Z
      then scheduleLoadSessionAssets w1
      else w1
  | ev_asset_error errorData =>
      setGameState (assetErrorUpdate errorData) w
  | ev_publish_status publishStatus =>
      setGameState (publishStatusUpdate publishStatus) w
  | ev_publish_success successData =>
      setGameState (publishSuccessUpdate successData) w
  | ev_publish_error errorType =>
      setGameState (publishErrorUpdate errorType) w
  | ev_publish_message _ =>
      forward env event w
  | ev_status p =>
      setGameState (statusUpdate p) w
  | ev_explanation p =>
      let w1 := setGameState explanationUpdate w in
      match nonblank_string p with
      | Some _ => forward env event w1
      | None => w1
      end
  | ev_features p =>
      match nonblank_string p with
      | Some _ => forward env event w
      | None => w
      end
  | ev_suggestions p =>
      match p with
      | PString suggestionsText =>
          setGameState (suggestionsUpdate suggestionsText) w
      | PNotString => w
      end
  | ev_code_chunk p =>
      match nonblank_string p with
      | Some codeContent => setGameState (codeChunkUpdate codeContent) w
      | None => w
      end
  | ev_command p =>
      let w1 :=
        match p with
        | PString s =>
            if includes s (str "<") then
              match exec re_command s with
              | Some commandMatch =>
                  setGameState
                    (commandUpdate (default [] (group (m_caps commandMatch) 2)))
                    w
              | None => w
              end
            else w
        | PNotString => w
        end in
      forward env event w1
  | ev_code payload =>
      setGameState (codeUpdate payload) w
  | ev_stream_complete =>
      scheduleLoadSessionAssets w
  | ev_error payload =>
      forward env event (setGameState (errorUpdate payload) w)
  | ev_chunk _ => w
  end.

(** Events applied one at a time, in arrival order. *)
Definition handleEvents (env : Env) (events : list SSEEvent) (w : World)
  : World :=
  fold_left (fun w e => handleEvent env e w) events w.

(** The other writers of the state in [GameProvider]: the [catch] block of
    [generateGame], [cancelGeneration] and [clearGame]. *)
Definition generateGameCatch (msg : jsstring) (prev : GameState) : GameState :=
  set_suggestions []
    (set_error (Some msg)
       (set_status status_error
          (set_isGenerating false prev))).

Definition cancelGeneration (prev : GameState) : GameState :=
  set_suggestions []
    (set_codeStream (CodeStream.mk [] type_html false)
       (set_buildingStatus (Building.mk [] false)
          (set_statusBox (StatusBox.mk phase_idle [] None)
             (set_status status_idle
                (set_isGenerating false prev))))).

Definition clearGame : GameState := initialGameState.

(* ===================================================================== *)
(** ** The asset generator: errors, operations and the process state *)
(* ===================================================================== *)

(** A thrown value: its [message] property (possibly [undefined]) and the
    rest of the object. *)
Record JsError := mkError {
  message : option jsstring;
  name : jsstring
}.

(** How one call of an asynchronous operation settles. *)
Inductive Outcome (A : Type) :=
| Resolved (v : A)
| Rejected (e : JsError).
Arguments Resolved {A} v.
Arguments Rejected {A} e.

(** How an [async function] completes. *)
Inductive Completion (A : Type) :=
| Returned (v : A)
| ReturnedUndefined
| Thrown (e : JsError).
Arguments Returned {A} v.
Arguments ReturnedUndefined {A}.
Arguments Thrown {A} e.

(** An entry of [global.operationUpdates[operationId]].  The [timestamp]
    and the formatted [message] text of an entry are display data and are
    left out. *)
Record Update := mkUpdate {
  u_status : jsstring;
  u_details : list (jsstring * jsstring);
  u_retryCount : option Z;
  u_maxRetries : option Z;
  u_waitTime : option Q
}.

(** The process state the pipeline acts on: [global.operationUpdates], the
    durations handed to [setTimeout] while sleeping (milliseconds, oldest
    first), and the levels of the lines written by [log]. *)
Record Sys := mkSys {
  operationUpdates : gmap jsstring (list Update);
  timers : list Z;
  console : list jsstring
}.

Definition log (level : jsstring) (s : Sys) : Sys :=
  mkSys (operationUpdates s) (timers s) (console s ++ [level]).

Definition sleep (ms : Z) (s : Sys) : Sys :=
  mkSys (operationUpdates s) (timers s ++ [ms]) (console s).

Definition set_operationUpdates (m : gmap jsstring (list Update)) (s : Sys)
  : Sys :=
  mkSys m (timers s) (console s).

(** [logOperation] ([index.js] and [src/logger.js] agree). *)
Definition logOperation (toolName operationId status : jsstring)
  (details : list (jsstring * jsstring)) (s : Sys) : Sys :=
  let level := if str_eqb status (str "ERROR") then str "ERROR"
               else str "INFO" in
  let s1 := log level s in
  let existing := default [] (operationUpdates s1 !! operationId) in
  let pushed := existing ++ [mkUpdate status details None None None] in
  let limited := if (100 <? length pushed)%nat then tl pushed else pushed in
  set_operationUpdates (<[operationId := limited]> (operationUpdates s1)) s1.

(** [if (operationId && global.operationUpdates[operationId]) { ...push }]. *)
Definition pushWaiting (operationId : option jsstring) (u : Update) (s : Sys)
  : Sys :=
  match operationId with
  | Some id =>
      if truthy id then
        match operationUpdates s !! id with
        | Some l => set_operationUpdates (<[id := l ++ [u]]> (operationUpdates s)) s
        | None => s
        end
      else s
  | None => s
  end.

Definition waitingUpdate (retries maxRetries : Z) (waitTime : Q) : Update :=
  mkUpdate (str "WAITING") [] (Some retries) (Some maxRetries) (Some waitTime).

(** The pattern both copies of the retry executor match the message with:
    [/exceeded your GPU quota.*(?:retry|wait)\s*(?:in|after)?\s*
      (?:(\d+):(\d+):(\d+)|(\d+)\s*(?:seconds|s)|(\d+)\s*(?:minutes|m)
         |(\d+)\s*(?:hours|h))/i]. *)
Definition re_gpuQuota : regex :=
  Cat (LitI (str "exceeded your GPU quota"))
  (Cat (Rep dot)
  (Cat (Alt (LitI (str "retry")) (LitI (str "wait")))
  (Cat (Rep isWhiteSpace)
  (Cat (Opt (Alt (LitI (str "in")) (LitI (str "after"))))
  (Cat (Rep isWhiteSpace)
  (Alt (Cat (Grp 1 (Plus isDigit)) (Cat (Chr (N.eqb 58))
         (Cat (Grp 2 (Plus isDigit)) (Cat (Chr (N.eqb 58))
            (Grp 3 (Plus isDigit))))))
  (Alt (Cat (Grp 4 (Plus isDigit)) (Cat (Rep isWhiteSpace)
         (Alt (LitI (str "seconds")) (LitI (str "s")))))
  (Alt (Cat (Grp 5 (Plus isDigit)) (Cat (Rep isWhiteSpace)
         (Alt (LitI (str "minutes")) (LitI (str "m")))))
       (Cat (Grp 6 (Plus isDigit)) (Cat (Rep isWhiteSpace)
         (Alt (LitI (str "hours")) (LitI (str "h"))))))))))))).

(** [error.message?.match(re)]. *)
Definition gpuQuotaMatch (msg : option jsstring) : option captures :=
  match msg with
  | Some m => option_map m_caps (exec re_gpuQuota m)
  | None => None
  end.

(** [parseInt(g)] of a capture group; [parseInt(g || 0)] gives the same, 0
    for a group that did not take part. *)
Definition groupInt (c : captures) (n : nat) : Z :=
  match group c n with
  | Some s => parseInt s
  | None => 0%Z
  end.

(** [a || b] on numbers. *)
Definition orElse (a b : Z) : Z := if (a =? 0)%Z then b else a.

(* ===================================================================== *)
(** ** [retryWithBackoff] of [index.js] *)
(* ===================================================================== *)

Module Monolith.

(** The wait parsed from a match, before the default is applied:
    [undefined] and 0 are both falsy, 0 stands for either. *)
Definition parsedWaitTime (c : captures) : Z :=
  if truthy_opt (group c 1) then
    (groupInt c 1 * 3600 + groupInt c 2 * 60 + groupInt c 3) * 1000
  else if truthy_opt (group c 4) then groupInt c 4 * 1000
  else if truthy_opt (group c 5) then groupInt c 5 * 60 * 1000
  else if truthy_opt (group c 6) then groupInt c 6 * 3600 * 1000
  else 0.

(** [if (!waitTime || waitTime <= 0) waitTime = 60 * 1000]. *)
Definition quotaWaitTime (c : captures) : Z :=
  let waitTime := parsedWaitTime c in
  if (waitTime =? 0)%Z || (waitTime <=? 0)%Z then 60 * 1000 else waitTime.

Definition mentionsQuota (msg : option jsstring) : bool :=
  match msg with
  | Some m => includes m (str "GPU quota") || includes m (str "quota exceeded")
  | None => false
  end.

(** The [catch] block after the retry count has been checked: what is
    logged and recorded, how long the executor sleeps, and the next
    backoff delay. *)
Definition waitAfterFailure (error : JsError) (operationId : option jsstring)
  (retries maxRetries delay : Z) (s : Sys) : Z * Sys :=
  match gpuQuotaMatch (message error) with
  | Some c =>
      let waitTime := quotaWaitTime c in
      let waitTimeSeconds := ((waitTime + 999) / 1000)%Z in
      let s1 := log (str "WARN") s in
      let s2 := pushWaiting operationId
                  (waitingUpdate retries maxRetries (inject_Z waitTimeSeconds))
                  s1 in
      (delay, sleep (waitTime + 1000) s2)
  | None =>
      if mentionsQuota (message error) then
        let defaultDelay := (60 * 1000)%Z in
        let s1 := log (str "WARN") s in
        let s2 := pushWaiting operationId
                    (waitingUpdate retries maxRetries
                       (Qmake defaultDelay 1000))
                    s1 in
        (delay, sleep defaultDelay s2)
      else
        let s1 := log (str "WARN") s in
        ((delay * 2)%Z, sleep delay s1)
  end.

(** The [while (true)] loop; [attempt] counts the calls of [operation]
    made so far, [fuel] bounds the iterations. *)
Fixpoint retryLoop {A} (fuel : nat) (operation : nat -> Outcome A)
  (operationId : option jsstring) (maxRetries : Z)
  (attempt : nat) (retries delay : Z) (s : Sys)
  : option (Completion A * Sys) :=
  match fuel with
  | O => None
  | S fuel' =>
      match operation attempt with
      | Resolved v => Some (Returned v, s)
      | Rejected error =>
          let retries := (retries + 1)%Z in
          if (maxRetries <? retries)%Z then Some (Thrown error, s)
          else
            let '(delay', s') :=
              waitAfterFailure error operationId retries maxRetries delay s in
            retryLoop fuel' operation operationId maxRetries
              (S attempt) retries delay' s'
      end
  end.

Definition retryWithBackoff {A} (fuel : nat) (operation : nat -> Outcome A)
  (operationId : option jsstring) (maxRetries initialDelay : Z) (s : Sys)
  : option (Completion A * Sys) :=
  retryLoop fuel operation operationId maxRetries 0 0 initialDelay s.

End Monolith.

(* ===================================================================== *)
(** ** [retryWithBackoff] and [calculateWaitTime] of [src/utils.js] *)
(* ===================================================================== *)

Module Utils.

Definition calculateWaitTime (errorMessage : option jsstring)
  (defaultDelay : Z) : Z :=
  match gpuQuotaMatch errorMessage with
  | None => defaultDelay
  | Some c =>
      orElse ((groupInt c 1 * 3600 + groupInt c 2 * 60 + groupInt c 3) * 1000)
        (orElse (groupInt c 4 * 1000)
           (orElse (groupInt c 5 * 60 * 1000)
              (orElse (groupInt c 6 * 3600 * 1000)
                 (60 * 1000))))
  end.

Definition waitAfterFailure (error : JsError) (operationId : option jsstring)
  (retries maxRetries delay : Z) (s : Sys) : Z * Sys :=
  let waitTime := calculateWaitTime (message error) delay in
  let s1 := log (str "WARN") s in
  let s2 := pushWaiting operationId
              (waitingUpdate retries maxRetries (Qmake waitTime 1000)) s1 in
  ((delay * 2)%Z, sleep waitTime s2).

(** The [while (retries <= maxRetries)] loop. *)
Fixpoint retryLoop {A} (fuel : nat) (operation : nat -> Outcome A)
  (operationId : option jsstring) (maxRetries : Z)
  (attempt : nat) (retries delay : Z) (s : Sys)
  : option (Completion A * Sys) :=
  match fuel with
  | O => None
  | S fuel' =>
      if (retries <=? maxRetries)%Z then
        match operation attempt with
        | Resolved v => Some (Returned v, s)
        | Rejected error =>
            let retries := (retries + 1)%Z in
            if (maxRetries <? retries)%Z then Some (Thrown error, s)
            else
              let '(delay', s') :=
                waitAfterFailure error operationId retries maxRetries delay s in
              retryLoop fuel' operation operationId maxRetries
                (S attempt) retries delay' s'
        end
      else Some (ReturnedUndefined, s)
  end.

Definition retryWithBackoff {A} (fuel : nat) (operation : nat -> Outcome A)
  (operationId : option jsstring) (maxRetries initialDelay : Z) (s : Sys)
  : option (Completion A * Sys) :=
  retryLoop fuel operation operationId maxRetries 0 0 initialDelay s.

End Utils.

(* ===================================================================== *)
(** ** [detectSpaceType] of [src/spaceTypes.js] *)
(* ===================================================================== *)

Module SPACE_TYPE.
Definition INSTANTMESH : jsstring := str "instantmesh".
Definition HUNYUAN3D : jsstring := str "hunyuan3d".
Definition HUNYUAN3D_MINI_TURBO : jsstring := str "hunyuan3d_mini_turbo".
Definition UNKNOWN : jsstring := str "unknown".
(** [Object.values(SPACE_TYPE)]. *)
Definition values : list jsstring :=
  [INSTANTMESH; HUNYUAN3D; HUNYUAN3D_MINI_TURBO; UNKNOWN].
End SPACE_TYPE.

(** What [client.view_api(true)] resolves to, as far as the detection looks
    at it: a falsy value, an object without [named_endpoints], or the keys
    of [named_endpoints]. *)
Inductive ApiInfo :=
| ApiFalsy
| ApiNoNamedEndpoints
| ApiNamedEndpoints (endpoints : list jsstring).

(** [String.prototype.toLowerCase] on the ASCII letters; units outside
    [A-Z] are left as they are. *)
Definition lowerAscii (s : jsstring) : jsstring :=
  List.map (fun c => if (65 <=? c) && (c <=? 90) then c + 32 else c) s.

Section SpaceTypes.

(** The runtime's [toLowerCase]; [lowerAscii] is it on ASCII strings. *)
Variable toLowerCase : jsstring -> jsstring.

Definition unableToDetermine (modelSpace : jsstring) : JsError :=
  mkError
    (Some (str "Unable to determine space type for " ++ [34] ++ modelSpace
           ++ [34] ++ str ". Please set MODEL_SPACE_TYPE in .env to "
           ++ [34] ++ str "instantmesh" ++ [34] ++ str ", "
           ++ [34] ++ str "hunyuan3d" ++ [34] ++ str ", or "
           ++ [34] ++ str "hunyuan3d_mini_turbo" ++ [34] ++ str "."))
    (str "Error").

(** The name fallback at the end of the [try] block. *)
Definition detectByName (modelSpace : jsstring) : Completion jsstring :=
  let lowerSpace := toLowerCase modelSpace in
  if includes lowerSpace (str "hunyuan3d-2mini-turbo")
     || includes lowerSpace (str "hunyuan3d-2mini")
     || includes lowerSpace (str "hunyuan3dmini")
  then Returned SPACE_TYPE.HUNYUAN3D_MINI_TURBO
  else if includes lowerSpace (str "hunyuan")
  then Returned SPACE_TYPE.HUNYUAN3D
  else if includes lowerSpace (str "instantmesh")
  then Returned SPACE_TYPE.INSTANTMESH
  else Thrown (unableToDetermine modelSpace).

(** The endpoint signatures, in the order they are tried. *)
Definition detectByEndpoints (apiInfo : ApiInfo) : option jsstring :=
  match apiInfo with
  | ApiNamedEndpoints endpoints =>
      if existsb (arr_includes [str "/check_input_image"; str "/preprocess";
                                str "/generate_mvs"; str "/make3d"]) endpoints
      then Some SPACE_TYPE.INSTANTMESH
      else if existsb (arr_includes [str "/on_gen_mode_change";
                                     str "/on_decode_mode_change";
                                     str "/on_export_click"]) endpoints
      then Some SPACE_TYPE.HUNYUAN3D_MINI_TURBO
      else if existsb (arr_includes [str "/shape_generation";
                                     str "/generation_all"]) endpoints
      then Some SPACE_TYPE.HUNYUAN3D
      else None
  | _ => None
  end.

(** [detectSpaceType(client, modelSpace, workDir)].  [MODEL_SPACE_TYPE] is
    the environment variable, [view_api] how the probe (raced against its
    30 s timeout) settles, [detected] the module variable
    [detectedSpaceType]; the result is the completion and the new value of
    that variable. *)
Definition detectSpaceType (MODEL_SPACE_TYPE : option jsstring)
  (view_api : Outcome ApiInfo) (modelSpace : jsstring) (detected : jsstring)
  : Completion jsstring * jsstring :=
  let manualSpaceType := option_map toLowerCase MODEL_SPACE_TYPE in
  let found (t : jsstring) := (Returned t, t) in
  if truthy_opt manualSpaceType
     && arr_includes SPACE_TYPE.values (default [] manualSpaceType)
  then found (default [] manualSpaceType)
  else
    match view_api with
    | Rejected error => (Thrown error, detected)
    | Resolved apiInfo =>
        match detectByEndpoints apiInfo with
        | Some t => found t
        | None =>
            match detectByName modelSpace with
            | Returned t => found t
            | other => (other, detected)
            end
        end
    end.

End SpaceTypes.


(* ===================================================================== *)
(** ** The rest of [GameProvider] *)
(* ===================================================================== *)

(** The state update at the start of [generateGame]. *)
Definition generateGameStart (prev : GameState) : GameState :=
  set_operationType operation_idle
    (set_publisher
       (Publisher.mk (Publisher.status (publisher prev))
          (Publisher.liveUrl (publisher prev))
          (Publisher.siteName (publisher prev))
          None false)
       (set_suggestions (suggestions prev)
          (set_codeStream
             (CodeStream.mk (CodeStream.content (codeStream prev))
                (CodeStream.currentType (codeStream prev)) false)
             (set_buildingStatus
                (Building.mk (Building.bullets (buildingStatus prev)) false)
                (set_statusBox
                   (StatusBox.mk phase_analyzing [str "Starting..."]
                      (Some (str "Analyzing your request...")))
                   (set_error None
                      (set_status status_thinking
                         (set_isGenerating true prev)))))))).

(** [getAssetPreviewUrl(filename)], in a render that sees [realSessionId]
    and [sessionId]. *)
Definition getAssetPreviewUrl (realSessionId : option jsstring)
  (sessionId filename : jsstring) : jsstring :=
  let sessionIdToUse :=
    if truthy_opt realSessionId then default [] realSessionId
    else sessionId in
  str "http://localhost:8000/assets/" ++ sessionIdToUse ++ str "/"
  ++ filename ++ str "/preview".

(** How the [fetch] of [loadSessionAssets] ends: a response that is [ok]
    with the asset records of its body, a response that is not, or an
    exception. *)
Inductive AssetsResponse :=
| ResponseOk (assets : list AssetInfo.t)
| ResponseNotOk
| FetchFailed.

(** [loadSessionAssets], as a state update. *)
Definition loadSessionAssets (realSessionId : option jsstring)
  (sessionId : jsstring) (response : AssetsResponse) (prev : GameState)
  : GameState :=
  match response with
  | ResponseOk fetched =>
      let assetsWithPreviewUrls :=
        List.map
          (fun asset =>
             AssetInfo.mk (AssetInfo.filename asset) (AssetInfo.category asset)
               (AssetInfo.gcs_url asset)
               (Some (getAssetPreviewUrl realSessionId sessionId
                        (AssetInfo.filename asset)))
               (AssetInfo.size_bytes asset) (AssetInfo.timestamp asset)
               asset_status_completed)
          fetched in
      set_assets
        (Assets.mk assetsWithPreviewUrls
           (Assets.isGenerating (assets prev))
           (Assets.currentCategory (assets prev))
           (Assets.progress (assets prev))
           (Assets.error (assets prev)))
        prev
  | ResponseNotOk => prev
  | FetchFailed => prev
  end.

(** [updateStatusBox(update)]; a [Partial<StatusBoxState>] is the fields it
    gives, each of which replaces the field of the state. *)
Record StatusBoxUpdate := mkStatusBoxUpdate {
  upd_phase : option Phase;
  upd_bullets : option (list jsstring);
  upd_tip : option (option jsstring)
}.

Definition updateStatusBox (update : StatusBoxUpdate) (prev : GameState)
  : GameState :=
  set_statusBox
    (StatusBox.mk
       (default (StatusBox.phase (statusBox prev)) (upd_phase update))
       (default (StatusBox.bullets (statusBox prev)) (upd_bullets update))
       (default (StatusBox.tip (statusBox prev)) (upd_tip update)))
    prev.

(** [updateAgentState(agentName, updates)]. *)
Inductive AgentName :=
| agent_orchestrator | agent_gameCreator | agent_assetGenerator
| agent_publisher.

Record AgentUpdate := mkAgentUpdate {
  upd_status : option AgentStatus;
  upd_currentTask : option jsstring;
  upd_lastActivity : option (option jsstring)
}.

Definition set_agents v (s : GameState) :=
  mkGameState (code s) (isGenerating s) (status s) (error s) (statusBox s)
    (buildingStatus s) (codeStream s) (suggestions s) (publisher s)
    (operationType s) v (assets s).

Definition updateAgent (updates : AgentUpdate) (a : Agent.t) : Agent.t :=
  Agent.mk (default (Agent.status a) (upd_status updates))
    (default (Agent.currentTask a) (upd_currentTask updates))
    (default (Agent.lastActivity a) (upd_lastActivity updates)).

Definition updateAgentState (agentName : AgentName) (updates : AgentUpdate)
  (prev : GameState) : GameState :=
  let a := agents prev in
  set_agents
    (match agentName with
     | agent_orchestrator =>
         Agents.mk (updateAgent updates (Agents.orchestrator a))
           (Agents.gameCreator a) (Agents.assetGenerator a)
           (Agents.publisher a)
     | agent_gameCreator =>
         Agents.mk (Agents.orchestrator a)
           (updateAgent updates (Agents.gameCreator a))
           (Agents.assetGenerator a) (Agents.publisher a)
     | agent_assetGenerator =>
         Agents.mk (Agents.orchestrator a) (Agents.gameCreator a)
           (updateAgent updates (Agents.assetGenerator a))
           (Agents.publisher a)
     | agent_publisher =>
         Agents.mk (Agents.orchestrator a) (Agents.gameCreator a)
           (Agents.assetGenerator a)
           (updateAgent updates (Agents.publisher a))
     end)
    prev.

(* ===================================================================== *)
(** ** The helpers of [src/utils.js] (the same in [index.js]) *)
(* ===================================================================== *)

(** What [/[^\w\s.,!?-]/g] leaves in place. *)
Definition isPromptChar (c : jschar) : bool :=
  isWordChar c || isWhiteSpace c
  || (c =? 46) || (c =? 44) || (c =? 33) || (c =? 63) || (c =? 45).

(** [sanitizePrompt(prompt)]; [None] is a prompt that is not a string. *)
Definition sanitizePrompt (prompt : option jsstring) : jsstring :=
  match prompt with
  | Some p =>
      if truthy p then firstn 500 (List.filter isPromptChar (trim p)) else []
  | None => []
  end.

(** The prompt of a tool call: [z.string().min(1).max(500)
    .transform(sanitizePrompt)] of the schema, then the handler's
    [if (!prompt) throw]. *)
Definition zodError : JsError := mkError None (str "ZodError").

Definition acceptPrompt (prompt : option jsstring) : Completion jsstring :=
  match prompt with
  | None => Thrown zodError
  | Some p =>
      if (length p <? 1)%nat || (500 <? length p)%nat then Thrown zodError
      else
        let sanitized := sanitizePrompt (Some p) in
        if truthy sanitized then Returned sanitized
        else Thrown (mkError (Some (str "Invalid or empty prompt"))
                       (str "Error"))
  end.

(** [generateUniqueFilename(prefix, ext, toolName)]; [timestamp] is the
    reading of [Date.now()], [uniqueId] the hexadecimal rendering of the
    four random bytes. *)
Definition generateUniqueFilename (prefix ext toolName : jsstring)
  (timestamp : Z) (uniqueId : jsstring) : jsstring :=
  prefix ++ str "_" ++ toolName ++ str "_" ++ showZ timestamp ++ str "_"
  ++ uniqueId ++ str "." ++ ext.

(** [s.endsWith(suffix)]. *)
Definition endsWith (s suffix : jsstring) : bool :=
  startsWith (rev suffix) (rev s).

Definition getMimeType (filename : jsstring) : jsstring :=
  if endsWith filename (str ".png") then str "image/png"
  else if endsWith filename (str ".jpg") || endsWith filename (str ".jpeg")
  then str "image/jpeg"
  else if endsWith filename (str ".obj") then str "model/obj"
  else if endsWith filename (str ".glb") then str "model/gltf-binary"
  else str "application/octet-stream".

(** [detectImageFormat(buffer)]; a buffer is its bytes, [None] a falsy
    argument. *)
Definition detectImageFormat (buffer : option (list N)) : jsstring :=
  match buffer with
  | None => str "Unknown"
  | Some bytes =>
      if (length bytes <? 4)%nat then str "Unknown"
      else
        match bytes with
        | b0 :: b1 :: b2 :: b3 :: _ =>
            if (b0 =? 0xFF) && (b1 =? 0xD8) && (b2 =? 0xFF) then str "JPEG"
            else if (b0 =? 0x89) && (b1 =? 0x50) && (b2 =? 0x4E)
                    && (b3 =? 0x47)
            then str "PNG"
            else str "PNG"
        | _ => str "PNG"
        end
  end.

(** The extension the tool handlers save a generated image under:
    [format === "JPEG" ? "jpg" : "png"]. *)
Definition imageExtension (buffer : option (list N)) : jsstring :=
  if str_eqb (detectImageFormat buffer) (str "JPEG") then str "jpg"
  else str "png".

(** A pattern of the form [^r$]: the match starts at 0, and the
    continuation accepts at the end of the input only. *)
Definition match_whole (r : regex) (s : jsstring) : option captures :=
  rmatch s r 0 []
    (fun j c => if Nat.eqb j (length s) then Some c else None).

Definition notSlash (c : jschar) : bool := negb (c =? 47).

(** [/^asset:\/\/(?:([^\/]+)\/)?(.+)$/], without the anchors. *)
Definition re_resourceUri : regex :=
  Cat (Lit (str "asset://"))
    (Cat (Opt (Cat (Grp 1 (Plus notSlash)) (Chr (N.eqb 47))))
       (Grp 2 (Plus dot))).

(** [parseResourceUri(uri)]: [null], or the pair of [type] (possibly
    [undefined]) and [id]. *)
Definition parseResourceUri (uri : jsstring)
  : option (option jsstring * jsstring) :=
  match match_whole re_resourceUri uri with
  | Some c => Some (group c 1, default [] (group c 2))
  | None => None
  end.

(** The key a client is counted under: [clientId || 'default']. *)
Definition clientKeyOf (clientId : option jsstring) : jsstring :=
  if truthy_opt clientId then default [] clientId else str "default".

(** The rate limiter: [rateLimits] maps a client key to its [count] and
    [resetAt]; [now] is the reading of [Date.now()]. *)
Definition checkRateLimit (clientId : option jsstring)
  (limit windowMs now : Z) (rateLimits : gmap jsstring (Z * Z))
  : bool * gmap jsstring (Z * Z) :=
  let clientKey := clientKeyOf clientId in
  match rateLimits !! clientKey with
  | None => (true, <[clientKey := (1, now + windowMs)%Z]> rateLimits)
  | Some (count, resetAt) =>
      if (resetAt <? now)%Z
      then (true, <[clientKey := (1, now + windowMs)%Z]> rateLimits)
      else if (limit <=? count)%Z then (false, rateLimits)
      else (true, <[clientKey := (count + 1, resetAt)%Z]> rateLimits)
  end.

(** [validateSpaceFormat(space)]: the character class [[a-zA-Z0-9_-]] and
    the pattern [/^[a-zA-Z0-9_-]+\/[a-zA-Z0-9_-]+$/]. *)
Definition isSpaceChar (c : jschar) : bool :=
  ((97 <=? c) && (c <=? 122)) || ((65 <=? c) && (c <=? 90)) || isDigit c
  || (c =? 95) || (c =? 45).

Definition re_space : regex :=
  Cat (Plus isSpaceChar) (Cat (Chr (N.eqb 47)) (Plus isSpaceChar)).

Definition validateSpaceFormat (space : option jsstring) : bool :=
  match space with
  | None => false
  | Some s =>
      if truthy s then
        match match_whole re_space s with
        | Some _ =>
            let parts := split 47 s in
            Nat.eqb (length parts) 2
            && (2 <=? length (nth 0 parts []))%nat
            && (2 <=? length (nth 1 parts []))%nat
        | None => false
        end
      else false
  end.

(* ===================================================================== *)
(** ** The resource handlers of [src/resources.js] *)
(* ===================================================================== *)

(** A directory entry that is a file: its name, and the [ctime] and [size]
    of its [stat]. *)
Record FileEntry := mkFile {
  f_name : jsstring;
  f_ctime : jsstring;
  f_size : Z
}.

Record Resource := mkResource {
  r_uri : jsstring;
  r_name : jsstring;
  r_mimetype : jsstring;
  r_created : jsstring;
  r_size : Z;
  r_toolOrigin : jsstring;
  r_assetType : jsstring
}.

(** [parts[i] || 'unknown']. *)
Definition partOrUnknown (parts : list jsstring) (i : nat) : jsstring :=
  match nth_error parts i with
  | Some p => if truthy p then p else str "unknown"
  | None => str "unknown"
  end.

Definition toResource (file : FileEntry) : Resource :=
  let filenameParts := split 95 (f_name file) in
  let assetType := partOrUnknown filenameParts 0 in
  let toolOrigin := partOrUnknown filenameParts 1 in
  mkResource (str "asset://" ++ assetType ++ str "/" ++ f_name file)
    (f_name file) (getMimeType (f_name file)) (f_ctime file) (f_size file)
    toolOrigin assetType.

(** [/^asset:\/\/([^\/]+)\/.*$/], without the anchors. *)
Definition re_template : regex :=
  Cat (Lit (str "asset://"))
    (Cat (Grp 1 (Plus notSlash)) (Cat (Chr (N.eqb 47)) (Rep dot))).

(** The type filter of a list request: [null] without a template or when
    the template does not match. *)
Definition typeFilter (uriTemplate : option jsstring) : option jsstring :=
  match uriTemplate with
  | Some t =>
      if truthy t then
        match match_whole re_template t with
        | Some c => group c 1
        | None => None
        end
      else None
  | None => None
  end.

(** The list handler on the files of the assets directory. *)
Definition listResources (uriTemplate : option jsstring)
  (files : list FileEntry) : list Resource :=
  let resources := List.map toResource files in
  if truthy_opt (typeFilter uriTemplate)
  then List.filter
         (fun r => str_eqb (r_assetType r)
                     (default [] (typeFilter uriTemplate)))
         resources
  else resources.

(** The read handler up to the file system: the [actualFilename] it joins
    to the assets directory, or the error it throws before that. *)
Definition resourceFilename (uri : jsstring) : Completion jsstring :=
  if startsWith (str "asset://") uri then
    match parseResourceUri uri with
    | None =>
        Thrown (mkError (Some (str "Invalid resource URI format"))
                  (str "Error"))
    | Some (type, id) =>
        let filename :=
          if truthy_opt type && includes id (str "/") then id
          else if truthy_opt type then default [] type ++ str "/" ++ id
          else id in
        let actualFilename :=
          if includes filename (str "/")
          then List.last (split 47 filename) []
          else filename in
        Returned actualFilename
    end
  else Thrown (mkError (Some (str "Unsupported URI scheme")) (str "Error")).

(* ===================================================================== *)
(** ** [src/validation.js] and the configuration that uses it *)
(* ===================================================================== *)

(** The numbers [parseInt] gives: an integer or [NaN]. *)
Inductive JsInt := NaN | Int (z : Z).

(** The value of a digit in a radix. *)
Definition digitValue (radix : Z) (c : jschar) : option Z :=
  let v :=
    if isDigit c then Some (Z.of_N c - 48)%Z
    else if (97 <=? c) && (c <=? 122) then Some (Z.of_N c - 87)%Z
    else if (65 <=? c) && (c <=? 90) then Some (Z.of_N c - 55)%Z
    else None in
  match v with
  | Some d => if (d <? radix)%Z then Some d else None
  | None => None
  end.

(** The longest prefix of digits, as a number; [None] without a digit. *)
Fixpoint digitsValue (radix : Z) (s : jsstring) (acc : option Z) : option Z :=
  match s with
  | c :: s' =>
      match digitValue radix c with
      | Some d => digitsValue radix s' (Some (default 0 acc * radix + d)%Z)
      | None => acc
      end
  | [] => acc
  end.

(** [parseInt(s)] without a radix argument: leading white space, a sign, a
    [0x] prefix, the digits; beyond 2^53 JavaScript rounds where this keeps
    the integer. *)
Definition parseIntOf (s : jsstring) : JsInt :=
  let s1 := trimStart s in
  let '(sign, s2) :=
    match s1 with
    | 45 :: r => ((-1)%Z, r)
    | 43 :: r => (1%Z, r)
    | _ => (1%Z, s1)
    end in
  let '(radix, s3) :=
    match s2 with
    | 48 :: x :: r => if (x =? 120) || (x =? 88) then (16%Z, r) else (10%Z, s2)
    | _ => (10%Z, s2)
    end in
  match digitsValue radix s3 None with
  | Some v => Int (sign * v)
  | None => NaN
  end.

(** [validateNumericRange(value, min, max, defaultValue)] on a value that
    is [null]/[undefined] ([None]) or a number [parseInt] gave. *)
Definition validateNumericRange (value : option JsInt) (min max : Z)
  (defaultValue : option Z) : option Z :=
  match value with
  | None => defaultValue
  | Some NaN => defaultValue
  | Some (Int numValue) =>
      if (numValue <? min)%Z then Some min
      else if (max <? numValue)%Z then Some max
      else Some numValue
  end.

Definition validateEnum (value : option jsstring)
  (allowedValues : list jsstring) (defaultValue : option jsstring)
  : option jsstring :=
  match value with
  | None => defaultValue
  | Some v => if arr_includes allowedValues v then Some v else defaultValue
  end.

(** The part of [loadConfig] that reads the model parameters; an
    environment variable is [None] when unset. *)
Record Config := mkConfig {
  model3dSteps : option JsInt;
  model3dOctreeResolution : option jsstring;
  model3dSeed : option Z;
  model3dRemoveBackground : bool;
  model3dTurboMode : option jsstring;
  modelSpaceType : option jsstring
}.

Record Environment := mkEnvironment {
  MODEL_3D_STEPS : option jsstring;
  MODEL_3D_OCTREE_RESOLUTION : option jsstring;
  MODEL_3D_SEED : option jsstring;
  MODEL_3D_REMOVE_BACKGROUND : option jsstring;
  MODEL_3D_TURBO_MODE : option jsstring;
  MODEL_SPACE_TYPE : option jsstring
}.

Definition validTurboModes : list jsstring :=
  [str "Turbo"; str "Fast"; str "Standard"].

Section LoadConfig.

Variable toLowerCase : jsstring -> jsstring.

Definition loadConfig (env : Environment) : Config :=
  mkConfig
    (if truthy_opt (MODEL_3D_STEPS env)
     then Some (parseIntOf (default [] (MODEL_3D_STEPS env))) else None)
    (if truthy_opt (MODEL_3D_OCTREE_RESOLUTION env)
     then MODEL_3D_OCTREE_RESOLUTION env else None)
    (if truthy_opt (MODEL_3D_SEED env)
     then validateNumericRange
            (Some (parseIntOf (default [] (MODEL_3D_SEED env))))
            0 10000000 None
     else None)
    (if truthy_opt (MODEL_3D_REMOVE_BACKGROUND env)
     then str_eqb (toLowerCase (default [] (MODEL_3D_REMOVE_BACKGROUND env)))
            (str "true")
     else true)
    (validateEnum (MODEL_3D_TURBO_MODE env) validTurboModes
       (Some (str "Turbo")))
    (validateEnum (MODEL_SPACE_TYPE env) SPACE_TYPE.values None).

(** The choice of the space type in [initializeClients]:
    [modelSpaceType || await detectSpaceType(...)]. *)
Definition chooseSpaceType (env : Environment) (view_api : Outcome ApiInfo)
  (modelSpace : jsstring) : Completion jsstring :=
  if truthy_opt (modelSpaceType (loadConfig env))
  then Returned (default [] (modelSpaceType (loadConfig env)))
  else fst (detectSpaceType toLowerCase (MODEL_SPACE_TYPE env) view_api
              modelSpace SPACE_TYPE.UNKNOWN).

End LoadConfig.

(* ===================================================================== *)
(** ** The model parameters of the three workflows *)
(* ===================================================================== *)

(** [x || d] for a number that may be [null] or [NaN]: 0 is falsy too. *)
Definition intOr (x : option JsInt) (d : Z) : Z :=
  match x with
  | Some (Int z) => if (z =? 0)%Z then d else z
  | _ => d
  end.

Definition numberOr (x : option Z) (d : Z) : Z :=
  match x with
  | Some z => if (z =? 0)%Z then d else z
  | None => d
  end.

(** [Math.max(lo, Math.min(hi, x))]. *)
Definition clamp (lo hi x : Z) : Z := Z.max lo (Z.min hi x).

(** The same on a number that may be [NaN], which [Math.min] and
    [Math.max] pass on. *)
Definition clampInt (lo hi : Z) (x : JsInt) : JsInt :=
  match x with
  | NaN => NaN
  | Int z => Int (clamp lo hi z)
  end.

Record ModelParams := mkParams {
  p_steps : JsInt;
  p_seed : Z;
  p_octreeResolution : option jsstring;
  p_octree : option Z;
  p_removeBackground : bool
}.

(** [processHunyuan3d]: the parameters of its [/generation_all] call. *)
Definition hunyuan3dParams (config : Config) : ModelParams :=
  let steps := clamp 20 50 (intOr (model3dSteps config) 20) in
  let seed := numberOr (model3dSeed config) 1234 in
  let validOctreeResolutions := [str "256"; str "384"; str "512"] in
  let octreeResolution :=
    match model3dOctreeResolution config with
    | Some r => if arr_includes validOctreeResolutions r then r else str "256"
    | None => str "256"
    end in
  mkParams (Int steps) seed (Some octreeResolution) None
    (model3dRemoveBackground config).

(** [processHunyuan3dMiniTurbo]: the mode it sets and the parameters of
    its [/generation_all] call. *)
Definition miniTurboMode (config : Config) : jsstring :=
  if truthy_opt (model3dTurboMode config)
  then default [] (model3dTurboMode config) else str "Turbo".

Definition miniTurboParams (config : Config) : ModelParams :=
  let turboMode := miniTurboMode config in
  let defaultSteps :=
    if str_eqb turboMode (str "Turbo") then 5%Z
    else if str_eqb turboMode (str "Fast") then 10%Z else 20%Z in
  let steps := clamp 1 100 (intOr (model3dSteps config) defaultSteps) in
  let seed := numberOr (model3dSeed config) 1234 in
  let octreeResolution :=
    clamp 16 512
      (intOr (Some (parseIntOf
                      (default (str "null") (model3dOctreeResolution config))))
         256) in
  mkParams (Int steps) seed None (Some octreeResolution)
    (model3dRemoveBackground config).

(** [processInstantMesh]: the steps and the seed of its [/generate_mvs]
    call. *)
Definition instantMeshParams (config : Config) : ModelParams :=
  let steps :=
    match model3dSteps config with
    | Some s => s
    | None => Int 75
    end in
  let seed :=
    match model3dSeed config with
    | Some s => s
    | None => 42%Z
    end in
  mkParams (clampInt 30 75 steps) seed None None
    (model3dRemoveBackground config).

(* ===================================================================== *)
(** ** [process3dAsset] of [src/workflows/index.js] *)
(* ===================================================================== *)

Section Process3dAsset.

(** The parameters handed on and the three workflows. *)
Context {P R : Type}.
Variable processInstantMesh : P -> Completion R.
Variable processHunyuan3d : P -> Completion R.
Variable processHunyuan3dMiniTurbo : P -> Completion R.

Definition thrown {A} (msg : jsstring) : Completion A :=
  Thrown (mkError (Some msg) (str "Error")).

(** [assetsDir], [toolName] and [spaceType] are [None] when they are not
    strings. *)
Definition process3dAsset (assetsDir toolName spaceType : option jsstring)
  (params : P) : Completion R :=
  if negb (truthy_opt assetsDir)
  then thrown (str "assetsDir must be a defined string in process3dAsset")
  else if negb (truthy_opt toolName)
  then thrown (str "toolName must be a defined string in process3dAsset")
  else if negb (truthy_opt spaceType)
  then thrown (str "spaceType must be defined in process3dAsset")
  else
    let t := default [] spaceType in
    if str_eqb t SPACE_TYPE.INSTANTMESH then processInstantMesh params
    else if str_eqb t SPACE_TYPE.HUNYUAN3D then processHunyuan3d params
    else if str_eqb t SPACE_TYPE.HUNYUAN3D_MINI_TURBO
    then processHunyuan3dMiniTurbo params
    else thrown (str "Unsupported space type: " ++ t).

End Process3dAsset.

(* ===================================================================== *)
(** ** [logDetailedError] of [src/logger.js] *)
(* ===================================================================== *)

(** [hasStack], [hasResponse] and [hasContext] say whether the error has a
    stack, has a response, and whether context information was passed;
    they decide how many lines are written.  The [timestamp] among the
    details is display data and is left out, as in [Update]. *)
Definition logDetailedError (hasStack hasResponse hasContext : bool)
  (error : JsError) (operationId : jsstring) (s : Sys) : Sys :=
  let s1 := log (str "ERROR") s in
  let s2 := if hasStack then log (str "ERROR") s1 else s1 in
  let s3 := if hasResponse then log (str "ERROR") (log (str "ERROR") s2)
            else s2 in
  let s4 := if hasContext then log (str "ERROR") s3 else s3 in
  logOperation (str "ERROR") operationId (str "ERROR")
    [(str "error", default (str "undefined") (message error));
     (str "stack", if hasStack then str "See logs for details"
                   else str "Not available");
     (str "context", str "See logs for details")]
    s4.
(* ===================================================================== *)
(** ** Inputs the properties are evaluated on *)
(* ===================================================================== *)

(** An environment and a world to evaluate the reducer on. *)
Definition env0 : Env := mkEnv None (str "session_1") true (str "t0").
Definition world0 : World := mkWorld initialGameState None [] 0.

Definition snake : GameCode.t :=
  GameCode.mk (str "<html></html>") (str "") (str "").

(** The world's state after a game has been generated and suggestions have
    arrived: [code] is present. *)
Definition generated : World :=
  handleEvents env0
    [ev_status thinking; ev_code snake;
     ev_suggestions (PString (str "- Add sound"))] world0.

(** An 'asset_completed' payload without a session identifier. *)
Definition sprite : CompletedData.t :=
  CompletedData.mk (str "primary_character") (str "hero.png")
    (str "gs://maya/hero.png") (str "v1") 2048 (str "completed") None None.

Definition startWith (id : string) : SSEEvent :=
  ev_asset_session_start
    (SessionData.mk (str "sprites") 3 [] (Some (str id)) None).

(** The event types the operation type is classified by. *)
Definition publishingTypes : list jsstring :=
  [str "publish_status"; str "publish_success"; str "publish_error";
   str "publish_message"].
Definition gameCreationTypes : list jsstring :=
  [str "status"; str "explanation"; str "code"; str "features"].
Definition assetLifecycleTypes : list jsstring :=
  [str "asset_session_start"; str "asset_generating"; str "asset_completed";
   str "asset_session_complete"; str "asset_error"].

(** A run of 'code_chunk' events with string payloads. *)
Definition chunkEvents (payloads : list jsstring) : list SSEEvent :=
  List.map (fun p => ev_code_chunk (PString p)) payloads.

(** A payload that is more than white space. *)
Definition nonblank (p : jsstring) : bool := truthy (trim p).

(** ** Suggestion lines, described without regular expressions *)






(** ** Retrying, described without the loop *)


(** An operation that is rejected with the same message every time. *)
Definition failing (msg : string) : nat -> Outcome unit :=
  fun _ => Rejected (mkError (Some (str msg)) (str "Error")).

(** An operation that is rejected [k] times and then resolves. *)
Definition flaky (k : nat) (msg : string) : nat -> Outcome unit :=
  fun n => if (n <? k)%nat
           then Rejected (mkError (Some (str msg)) (str "Error"))
           else Resolved tt.

Definition sys0 : Sys := mkSys ∅ [] [].

(** The process state after [n] calls of [logOperation] for the operation
    "3D-1". *)
Definition logged (n : nat) : Sys :=
  Nat.iter n
    (logOperation (str "generate_3d_asset") (str "3D-1") (str "PROCESSING") [])
    sys0.

Definition updatesOf (id : jsstring) (s : Sys) : list Update :=
  default [] (operationUpdates s !! id).


(** An operation whose [n]-th call is rejected with the message [n]. *)
Definition numbered : nat -> Outcome unit :=
  fun n => Rejected (mkError (Some (showZ (Z.of_nat n))) (str "Error")).

Definition quotaMessage : string :=
  "You have exceeded your GPU quota, retry in 00:01:30".

(** The sleeps of a run. *)
Definition sleeps {A} (run : option (Completion A * Sys)) : option (list Z) :=
  option_map (fun r => timers (snd r)) run.


(** The three backend types a space can be detected as. *)
Definition knownSpaceTypes : list jsstring :=
  [SPACE_TYPE.INSTANTMESH; SPACE_TYPE.HUNYUAN3D;
   SPACE_TYPE.HUNYUAN3D_MINI_TURBO].

(** [MODEL_SPACE_TYPE] is unset, empty, or not one of the [SPACE_TYPE]
    values. *)
Definition noValidOverride (toLowerCase : jsstring -> jsstring)
  (MODEL_SPACE_TYPE : option jsstring) : bool :=
  negb (truthy_opt (option_map toLowerCase MODEL_SPACE_TYPE)
        && arr_includes SPACE_TYPE.values
             (default [] (option_map toLowerCase MODEL_SPACE_TYPE))).

(** An operation rejected with a network error, then a quota error, then a
    network error again, and so on. *)
Definition alternating : nat -> Outcome unit :=
  fun n => if Nat.even n
           then Rejected (mkError (Some (str "socket hang up")) (str "Error"))
           else Rejected (mkError (Some (str quotaMessage)) (str "Error")).

(** The scenario of the spec's section 8. *)
Definition scenario : list SSEEvent :=
  [ev_status thinking;
   ev_explanation (PString (str "Building snake"));
   ev_code_chunk (PString (str "<html>"));
   ev_code_chunk (PString (str "</html>"));
   ev_code snake].

(* ===================================================================== *)
(** ** Further inputs and descriptions *)
(* ===================================================================== *)

(** A series of calls of one client, with the same limit and window. *)
Fixpoint checkRateLimits (clientId : option jsstring) (limit windowMs : Z)
  (times : list Z) (rateLimits : gmap jsstring (Z * Z))
  : list bool * gmap jsstring (Z * Z) :=
  match times with
  | [] => ([], rateLimits)
  | now :: times' =>
      let '(ok, rateLimits') :=
        checkRateLimit clientId limit windowMs now rateLimits in
      let '(oks, rateLimits'') :=
        checkRateLimits clientId limit windowMs times' rateLimits' in
      (ok :: oks, rateLimits'')
  end.

(** ** Runs of the provider *)

(** What can happen to the provider's state: an event reaches
    [handleEvent] (in the closure of some call of [generateGame]), a
    generation is started, fails with an exception or is cancelled, the
    game is cleared, the session's assets are reloaded, or a consumer
    updates the status box or the state of an agent. *)
Inductive Step :=
| StepEvent (env : Env) (event : SSEEvent)
| StepStart
| StepCatch (msg : jsstring)
| StepCancel
| StepClear
| StepLoadAssets (seen : option jsstring) (session : jsstring)
    (response : AssetsResponse)
| StepStatusBox (update : StatusBoxUpdate)
| StepAgent (agentName : AgentName) (updates : AgentUpdate).

Definition step (w : World) (s : Step) : World :=
  match s with
  | StepEvent env event => handleEvent env event w
  | StepStart => setGameState generateGameStart w
  | StepCatch msg => setGameState (generateGameCatch msg) w
  | StepCancel => setGameState cancelGeneration w
  | StepClear => setGameState (fun _ => clearGame) w
  | StepLoadAssets seen session response =>
      setGameState (loadSessionAssets seen session response) w
  | StepStatusBox update => setGameState (updateStatusBox update) w
  | StepAgent agentName updates =>
      setGameState (updateAgentState agentName updates) w
  end.

Definition run (steps : list Step) : World := fold_left step steps world0.

(** The events [handleEvent] hands to [onChatEvent]. *)
Definition forwarded (e : SSEEvent) : bool :=
  match e with
  | ev_publish_message _ | ev_command _ | ev_error _ => true
  | ev_explanation p | ev_features p =>
      match nonblank_string p with Some _ => true | None => false end
  | _ => false
  end.

(** The events after which a reload of the assets is scheduled. *)
Definition schedulesReload (e : SSEEvent) : bool :=
  match e with
  | ev_stream_complete => true
  | ev_asset_session_complete d =>
      str_eqb (SessionCompleteData.status d) (str "completed")
      && (0 <? SessionCompleteData.total_generated d)%Z
  | _ => false
  end.

(** The payload of the last 'code' event, if there is one. *)
Definition lastCode (events : list SSEEvent) (before : option GameCode.t)
  : option GameCode.t :=
  fold_left
    (fun acc e => match e with ev_code p => Some p | _ => acc end)
    events before.

(** The event types that write the publisher slice; the ones that write
    the suggestions. *)
Definition publisherTypes : list jsstring :=
  [str "publish_status"; str "publish_success"; str "publish_error"].
Definition suggestionTypes : list jsstring :=
  [str "suggestions"; str "error"].

(** The two streaming flags agree, and the building checklist lists no
    step twice. *)
Definition flagsAgree (s : GameState) : Prop :=
  Building.isBuilding (buildingStatus s)
  = CodeStream.isStreaming (codeStream s).

Definition checklistDistinct (s : GameState) : Prop :=
  NoDup (Building.bullets (buildingStatus s)).

(** ** Resource names *)

(** Strings without a slash; strings without a line terminator. *)
Definition noSlash (s : jsstring) : bool := forallb notSlash s.
Definition oneLine (s : jsstring) : bool := forallb dot s.
Definition noUnderscore (s : jsstring) : bool :=
  forallb (fun c => negb (c =? 95)) s.

(** Image data of at least four bytes that begins FF D8 FF. *)
Definition isJpegData (buffer : option (list N)) : bool :=
  match buffer with
  | Some (b0 :: b1 :: b2 :: _ :: _) =>
      (b0 =? 0xFF) && (b1 =? 0xD8) && (b2 =? 0xFF)
  | _ => false
  end.

(** ** Rate limiting *)

(** Calls made no later than [resetAt]. *)
Definition notAfter (resetAt : Z) (times : list Z) : bool :=
  forallb (fun now => (now <=? resetAt)%Z) times.

(** ** Retrying after errors that are not about the quota *)




(** ** What a retry does to the operation logs *)

Definition isWaiting (u : Update) : bool :=
  str_eqb (u_status u) (str "WAITING").

(** From [s] to [s'] no operation was registered or dropped, every log
    kept its entries, and the only entries added are WAITING entries at the
    end of the log of operation [id]. *)
Definition waitingAdded (id : option jsstring) (s s' : Sys) : Prop :=
  forall k,
    match operationUpdates s !! k with
    | None => operationUpdates s' !! k = None
    | Some l =>
        exists added,
          operationUpdates s' !! k = Some (l ++ added)
          /\ forallb isWaiting added = true
          /\ (id <> Some k -> added = [])
    end.

(** ** Calls of the logger *)

Inductive LoggerCall :=
| CallLog (level : jsstring)
| CallLogOperation (toolName operationId status : jsstring)
    (details : list (jsstring * jsstring))
| CallLogDetailedError (hasStack hasResponse hasContext : bool)
    (error : JsError) (operationId : jsstring).

Definition loggerCall (s : Sys) (c : LoggerCall) : Sys :=
  match c with
  | CallLog level => log level s
  | CallLogOperation toolName operationId status details =>
      logOperation toolName operationId status details s
  | CallLogDetailedError hasStack hasResponse hasContext error operationId =>
      logDetailedError hasStack hasResponse hasContext error operationId s
  end.

(** Every operation log has at most 100 entries. *)
Definition logsBounded (s : Sys) : Prop :=
  forall k, (length (updatesOf k s) <= 100)%nat.

(** ** Model parameters *)

(** A step count that is a number between [lo] and [hi]. *)
Definition stepsWithin (lo hi : Z) (x : JsInt) : Prop :=
  match x with
  | Int z => (lo <= z <= hi)%Z
  | NaN => False
  end.

(* ===================================================================== *)
(** * Properties of the reducer *)
(* ===================================================================== *)

(** ** The [error] event *)

Lemma handleEvent_error env payload w :
  gameState (handleEvent env (ev_error payload) w)
  = errorUpdate payload (gameState w).
Proof.
  unfold handleEvent, forward. cbn.
  destruct (onChatEvent env); reflexivity.
Qed.

(** C1, as the code has it: processing an 'error' event leaves [code] as it
    was in the prior state, sets [suggestions] to the empty list, empties
    the code stream and records the payload as the error, whatever the prior
    state. *)
Theorem error_event_keeps_code_clears_suggestions env payload w :
  let s' := gameState (handleEvent env (ev_error payload) w) in
  code s' = code (gameState w)
  /\ suggestions s' = []
  /\ CodeStream.content (codeStream s') = []
  /\ CodeStream.isStreaming (codeStream s') = false
  /\ status s' = status_error
  /\ error s' = Some payload
  /\ isGenerating s' = false.
Proof.
  cbv zeta. rewrite handleEvent_error. repeat split.
Qed.

(** C1 as stated fails: an 'error' event arriving after a game was
    generated leaves the generated [code] in place. *)
Lemma error_event_code_not_cleared :
  code (gameState (handleEvent env0 (ev_error (str "boom")) generated))
  = Some snake
  /\ code (gameState (handleEvent env0 (ev_error (str "boom")) generated))
     <> None.
Proof.
  split; [reflexivity | discriminate].
Qed.

(** Of the writers of the state only [clearGame] resets [code]; the other
    error and cancel paths keep it, as the 'error' event does. *)
Lemma only_clearGame_resets_code msg prev :
  code (generateGameCatch msg prev) = code prev
  /\ code (cancelGeneration prev) = code prev
  /\ code clearGame = None.
Proof. repeat split. Qed.

(** ** The terminal [code] event *)

(** C3: a 'code' event replaces [code] by its payload, sets the status to
    'completed' and switches [isGenerating] and [codeStream.isStreaming]
    off, whatever the prior state. *)
Theorem code_event_completes env payload w :
  let s' := gameState (handleEvent env (ev_code payload) w) in
  code s' = Some payload
  /\ status s' = status_completed
  /\ isGenerating s' = false
  /\ CodeStream.isStreaming (codeStream s') = false.
Proof.
  cbv zeta. repeat split.
Qed.

(** ** The session identifier *)

(** C7, as the code has it: an 'asset_session_start' event whose payload
    carries a non-empty session identifier stores that identifier, whether
    or not one was captured before; a payload without one leaves the stored
    identifier as it was. *)
Theorem asset_session_start_overwrites env p w :
  realSessionId (handleEvent env (ev_asset_session_start p) w)
  = if truthy_opt (SessionData.session_id p)
    then SessionData.session_id p
    else realSessionId w.
Proof.
  unfold handleEvent. cbn.
  destruct (SessionData.session_id p) as [[|c id]|]; reflexivity.
Qed.

(** The guard "if not already captured" is in the 'asset_completed' case;
    it reads the [realSessionId] the handler's closure has captured. *)
Lemma asset_completed_captures_when_none_seen env p w :
  realSessionId (handleEvent env (ev_asset_completed p) w)
  = if truthy_opt (CompletedData.session_id p)
       && negb (truthy_opt (captured_realSessionId env))
    then CompletedData.session_id p
    else realSessionId w.
Proof.
  unfold handleEvent. cbn.
  destruct (CompletedData.session_id p) as [[|c id]|]; cbn; try reflexivity.
  destruct (truthy_opt (captured_realSessionId env)); reflexivity.
Qed.

(** C7 as stated fails: a second 'asset_session_start' replaces the
    identifier captured by the first. *)
Lemma asset_session_start_not_first_wins :
  realSessionId (handleEvent env0 (startWith "adk-1") world0)
  = Some (str "adk-1")
  /\ realSessionId
       (handleEvent env0 (startWith "adk-2")
          (handleEvent env0 (startWith "adk-1") world0))
     = Some (str "adk-2")
  /\ realSessionId
       (handleEvent env0 (startWith "adk-2")
          (handleEvent env0 (startWith "adk-1") world0))
     <> realSessionId (handleEvent env0 (startWith "adk-1") world0).
Proof.
  split; [reflexivity | split; [reflexivity | vm_compute; discriminate]].
Qed.

(** ** Operation type classification *)

Lemma operationType_forward env e w :
  operationType (gameState (forward env e w)) = operationType (gameState w).
Proof. unfold forward. destruct (onChatEvent env); reflexivity. Qed.

Ltac case_payloads :=
  repeat match goal with
         | |- context [match ?x with _ => _ end] => destruct x
         end.

(** C4: after an event is processed, [operationType] is 'publishing' for
    the four publish event types, 'game_creation' for status, explanation,
    code and features, and what it was before for the five asset-lifecycle
    event types; so a publish_status event gives 'publishing' also right
    after a game_creation-classified event. *)
Theorem operationType_classification env e w :
  (In (type e) publishingTypes ->
   operationType (gameState (handleEvent env e w)) = publishing)
  /\ (In (type e) gameCreationTypes ->
      operationType (gameState (handleEvent env e w)) = game_creation)
  /\ (In (type e) assetLifecycleTypes ->
      operationType (gameState (handleEvent env e w))
      = operationType (gameState w))
  /\ (forall p, In (type e) gameCreationTypes ->
      operationType
        (gameState (handleEvent env (ev_publish_status p)
                      (handleEvent env e w))) = publishing).
Proof.
  split; [|split; [|split]]; [intros H | intros H | intros H | intros p H];
    destruct e; vm_compute in H;
    try (exfalso; intuition discriminate); clear H;
    unfold handleEvent; cbn -[assetCompletedUpdate assetSessionCompleteUpdate
                               assetErrorUpdate assetGeneratingUpdate];
    rewrite ?operationType_forward; cbn;
    case_payloads; rewrite ?operationType_forward; reflexivity.
Qed.

(** C4 at a publish_status event that follows a status event, at a code
    event, and at an asset_completed event in the middle of publishing. *)
Lemma operationType_classification_witness :
  operationType
    (gameState (handleEvent env0 (ev_publish_status validating)
                  (handleEvent env0 (ev_status generating) world0)))
  = publishing
  /\ operationType (gameState (handleEvent env0 (ev_code snake) world0))
     = game_creation
  /\ operationType
       (gameState (handleEvent env0 (ev_asset_completed sprite)
                     (handleEvent env0 (ev_publish_status deploying) world0)))
     = operationType
         (gameState (handleEvent env0 (ev_publish_status deploying) world0))
  /\ operationType
       (gameState (handleEvent env0 (ev_publish_status preparing)
                     (handleEvent env0 (ev_explanation (PString (str "Snake")))
                        world0)))
     = publishing.
Proof.
  split; [|split; [|split]].
  - apply (proj1 (operationType_classification env0
                    (ev_publish_status validating)
                    (handleEvent env0 (ev_status generating) world0))).
    vm_compute. left. reflexivity.
  - apply (proj1 (proj2 (operationType_classification env0
                           (ev_code snake) world0))).
    vm_compute. right. right. left. reflexivity.
  - apply (proj1 (proj2 (proj2 (operationType_classification env0
             (ev_asset_completed sprite)
             (handleEvent env0 (ev_publish_status deploying) world0))))).
    vm_compute. right. right. left. reflexivity.
  - apply (proj2 (proj2 (proj2 (operationType_classification env0
             (ev_explanation (PString (str "Snake"))) world0)))).
    vm_compute. right. left. reflexivity.
Defined.

(** ** Code streaming *)

Lemma handleEvent_code_chunk env p w :
  gameState (handleEvent env (ev_code_chunk (PString p)) w)
  = if nonblank p then codeChunkUpdate p (gameState w) else gameState w.
Proof.
  unfold handleEvent, nonblank. cbn.
  destruct (truthy (trim p)); reflexivity.
Qed.

Lemma handleEvents_cons env e es w :
  handleEvents env (e :: es) w = handleEvents env es (handleEvent env e w).
Proof. reflexivity. Qed.

(** What a run of chunks makes of the accumulator: blank chunks are
    skipped, the first chunk that is kept starts afresh unless a stream is
    running, every later one is appended. *)
Lemma chunks_content env ps : forall w,
  CodeStream.content
    (codeStream (gameState (handleEvents env (chunkEvents ps) w)))
  = match List.filter nonblank ps with
    | [] => CodeStream.content (codeStream (gameState w))
    | _ :: _ =>
        (if CodeStream.isStreaming (codeStream (gameState w))
         then CodeStream.content (codeStream (gameState w)) else [])
        ++ concat (List.filter nonblank ps)
    end.
Proof.
  induction ps as [|p ps IH]; intros w; [reflexivity|].
  cbn [chunkEvents List.map]. rewrite handleEvents_cons.
  fold (chunkEvents ps). rewrite IH, handleEvent_code_chunk.
  cbn [List.filter]. destruct (nonblank p); [|reflexivity].
  cbn [codeChunkUpdate set_codeStream codeStream CodeStream.isStreaming
       CodeStream.content concat].
  destruct (List.filter nonblank ps) as [|q qs].
  - cbn. destruct (CodeStream.isStreaming (codeStream (gameState w)));
      cbn; rewrite ?app_nil_r; reflexivity.
  - destruct (CodeStream.isStreaming (codeStream (gameState w)));
      cbn [negb app]; rewrite <- ?app_assoc; reflexivity.
Qed.


(** The reducer on the scenario of status, explanation, two chunks and the
    terminal code event. *)
Example end_to_end_scenario :
  let s := gameState (handleEvents env0 scenario world0) in
  code s = Some snake
  /\ status s = status_completed
  /\ CodeStream.content (codeStream s) = str "<html></html>"
  /\ CodeStream.isStreaming (codeStream s) = false
  /\ operationType s = game_creation.
Proof. repeat split. Qed.


(* ===================================================================== *)
(** * The regular expressions of the suggestion parser, in list terms *)
(* ===================================================================== *)

Section RegexFacts.

Context {R : Type}.

Lemma backoff_first (k : nat -> option R) i n r :
  k (i + n)%nat = Some r -> backoff k i n = Some r.
Proof. intros H. destruct n; cbn; rewrite H; reflexivity. Qed.

Lemma backoff_none (k : nat -> option R) i n :
  (forall m, (m <= n)%nat -> k (i + m)%nat = None) -> backoff k i n = None.
Proof.
  induction n as [|n IH]; intros H; cbn.
  - rewrite (H O); [reflexivity | lia].
  - rewrite (H (S n)); [|lia]. apply IH. intros m Hm. apply H. lia.
Qed.


End RegexFacts.

Lemma run_len_skipn p s :
  match skipn (run_len p s) s with
  | x :: _ => p x = false
  | [] => True
  end.
Proof.
  induction s as [|c s IH]; cbn; [exact I|].
  destruct (p c) eqn:E; cbn; [exact IH | exact E].
Qed.



Lemma nth_error_skipn_0 (s : jsstring) n :
  nth_error s n = match skipn n s with x :: _ => Some x | [] => None end.
Proof.
  revert n. induction s as [|c s IH]; intros [|n]; cbn; auto.
Qed.












Local Arguments isWhiteSpace : simpl never.
Local Arguments isDashStar : simpl never.
Local Arguments isDigit : simpl never.
Local Arguments dot : simpl never.
Local Arguments N.eqb : simpl never.




Lemma skipn_S_tl (s : jsstring) n : skipn (S n) s = tl (skipn n s).
Proof.
  revert n. induction s as [|c s IH]; intros [|n]; cbn; auto.
Qed.

Local Arguments nth_error {A} !l !n : simpl nomatch.







(** ** The [suggestions] event *)

(** The parser on single lines: markers with and without white space, a
    numbered marker inside a dashed line, a line that is a marker only. *)
Example finalSuggestions_lines :
  finalSuggestions (str "* Add boss fight") = [str "Add boss fight"]
  /\ finalSuggestions (str "  12.   Faster snake  ") = [str "Faster snake"]
  /\ finalSuggestions (str "- 1. Add sound") = [str "Add sound"]
  /\ finalSuggestions (str "1. - Add sound") = [str "- Add sound"]
  /\ finalSuggestions (str "-Add sound") = defaultSuggestions
  /\ finalSuggestions (str "- ") = defaultSuggestions
  /\ finalSuggestions (str "Try adding sound.") = defaultSuggestions.
Proof. repeat split; vm_compute; reflexivity. Qed.


(* ===================================================================== *)
(** * Properties of the retry executor *)
(* ===================================================================== *)









(** The error thrown after three retries is the one of the fourth run. *)
Example retry_throws_fourth_error :
  option_map fst (Monolith.retryWithBackoff 4 numbered None 3 5000 sys0)
  = Some (Thrown (mkError (Some (str "3")) (str "Error")))
  /\ option_map fst (Utils.retryWithBackoff 4 numbered None 3 5000 sys0)
     = Some (Thrown (mkError (Some (str "3")) (str "Error")))
  /\ option_map fst
       (Utils.retryWithBackoff 9 (flaky 2 "timeout") None 3 5000 sys0)
     = Some (Returned tt).
Proof. repeat split; vm_compute; reflexivity. Qed.

(** With a negative [maxRetries] the copy in [src/utils.js] does not run
    the operation at all and returns [undefined]; the copy in [index.js]
    runs it once. *)
Example retry_negative_maxRetries :
  option_map fst (Utils.retryWithBackoff 4 numbered None (-1) 5000 sys0)
  = Some ReturnedUndefined
  /\ option_map fst (Monolith.retryWithBackoff 4 numbered None (-1) 5000 sys0)
     = Some (Thrown (mkError (Some (str "0")) (str "Error"))).
Proof. split; vm_compute; reflexivity. Qed.

(** ** The wait between attempts *)



(** [index.js] looks at the HH:MM:SS capture first: when the match has it,
    the wait is read from it. *)
Lemma hms_capture_first c h :
  group c 1 = Some h -> truthy h = true ->
  Monolith.parsedWaitTime c
  = ((groupInt c 1 * 3600 + groupInt c 2 * 60 + groupInt c 3) * 1000)%Z.
Proof.
  intros H Hh. unfold Monolith.parsedWaitTime. rewrite H. cbn. rewrite Hh.
  reflexivity.
Qed.

(** The pattern on the four duration forms, on a zero duration, and on a
    message with two durations. *)
Example calculateWaitTime_forms :
  Utils.calculateWaitTime
    (Some (str "exceeded your GPU quota, retry in 00:01:30")) 5000 = 90000%Z
  /\ Utils.calculateWaitTime
       (Some (str "Exceeded your GPU quota. Retry after 45 seconds")) 5000
     = 45000%Z
  /\ Utils.calculateWaitTime
       (Some (str "exceeded your GPU quota, wait 5 minutes")) 5000
     = 300000%Z
  /\ Utils.calculateWaitTime
       (Some (str "exceeded your GPU quota, retry in 2 hours")) 5000
     = 7200000%Z
  /\ Utils.calculateWaitTime
       (Some (str "exceeded your GPU quota, retry in 00:00:00")) 5000
     = 60000%Z
  /\ Utils.calculateWaitTime
       (Some (str "exceeded your GPU quota, retry in 00:01:30 or wait 5 minutes"))
       5000
     = 300000%Z
  /\ Utils.calculateWaitTime (Some (str "quota exceeded")) 5000 = 5000%Z
  /\ Utils.calculateWaitTime None 5000 = 5000%Z.
Proof. repeat split; vm_compute; reflexivity. Qed.

(** When network and quota failures alternate, [index.js] doubles the
    backoff delay at network failures only, [src/utils.js] at every
    failure. *)
Example wait_time_mixed_failures :
  sleeps (Monolith.retryWithBackoff 4 alternating None 3 5000 sys0)
  = Some [5000; 91000; 10000]%Z
  /\ sleeps (Utils.retryWithBackoff 4 alternating None 3 5000 sys0)
     = Some [5000; 90000; 20000]%Z.
Proof. split; vm_compute; reflexivity. Qed.

(** C5 at the inputs where the two copies part: for a GPU-quota message
    with the duration 00:01:30 the executor of [index.js] sleeps 90 s plus
    the 1 s buffer, the one of [src/utils.js] 90 s without buffer; for a
    message that mentions the quota without a duration [index.js] sleeps
    the 60 s default, [src/utils.js] the backoff delay; for any other
    message both sleep [initialDelay], doubled at each attempt. *)
Theorem wait_time_of_the_two_executors :
  sleeps (Monolith.retryWithBackoff 4 (failing quotaMessage) None 3 5000 sys0)
  = Some [91000; 91000; 91000]%Z
  /\ sleeps (Utils.retryWithBackoff 4 (failing quotaMessage) None 3 5000 sys0)
     = Some [90000; 90000; 90000]%Z
  /\ sleeps (Monolith.retryWithBackoff 4 (failing "quota exceeded") None 3
               5000 sys0)
     = Some [60000; 60000; 60000]%Z
  /\ sleeps (Utils.retryWithBackoff 4 (failing "quota exceeded") None 3
               5000 sys0)
     = Some [5000; 10000; 20000]%Z
  /\ sleeps (Monolith.retryWithBackoff 4 (failing "socket hang up") None 3
               5000 sys0)
     = Some [5000; 10000; 20000]%Z
  /\ sleeps (Utils.retryWithBackoff 4 (failing "socket hang up") None 3
               5000 sys0)
     = Some [5000; 10000; 20000]%Z.
Proof. repeat split; vm_compute; reflexivity. Qed.

(* ===================================================================== *)
(** * The rolling operation log *)
(* ===================================================================== *)

Lemma updatesOf_logOperation tool id status details s :
  updatesOf id (logOperation tool id status details s)
  = let pushed := updatesOf id s ++ [mkUpdate status details None None None] in
    if (100 <? length pushed)%nat then tl pushed else pushed.
Proof.
  unfold updatesOf, logOperation. cbn. rewrite lookup_insert_eq. reflexivity.
Qed.

(** [logOperation] keeps a log within the bound. *)
Lemma logOperation_bounded tool id status details s :
  (length (updatesOf id s) <= 100)%nat ->
  (length (updatesOf id (logOperation tool id status details s)) <= 100)%nat.
Proof.
  intros H. rewrite updatesOf_logOperation. cbv zeta.
  destruct (Nat.ltb_spec 100
              (length (updatesOf id s
                       ++ [mkUpdate status details None None None]))) as [Hl|Hl];
    [|exact Hl].
  rewrite length_app in Hl. cbn in Hl.
  destruct (updatesOf id s) as [|u l]; cbn in *; [lia|].
  rewrite length_app. cbn. lia.
Qed.

(** At the bound, [logOperation] drops the oldest entry. *)
Lemma logOperation_evicts_oldest tool id status details s u l :
  updatesOf id s = u :: l -> length l = 99%nat ->
  updatesOf id (logOperation tool id status details s)
  = l ++ [mkUpdate status details None None None].
Proof.
  intros E Hl. rewrite updatesOf_logOperation, E. cbv zeta.
  destruct (Nat.ltb_spec 100
              (length ((u :: l) ++ [mkUpdate status details None None None])))
    as [H|H]; [reflexivity|].
  rewrite length_app in H. cbn in H. lia.
Qed.

(** The push of the retry executor appends and never evicts. *)
Lemma updatesOf_pushWaiting id u s :
  truthy id = true -> is_Some (operationUpdates s !! id) ->
  updatesOf id (pushWaiting (Some id) u s) = updatesOf id s ++ [u].
Proof.
  intros Hid [l Hl]. unfold updatesOf, pushWaiting. rewrite Hid, Hl. cbn.
  rewrite lookup_insert_eq. reflexivity.
Qed.


(* ===================================================================== *)
(** * Backend space-type detection *)
(* ===================================================================== *)

Lemma detectByEndpoints_known api t :
  detectByEndpoints api = Some t -> In t knownSpaceTypes.
Proof.
  unfold detectByEndpoints, knownSpaceTypes. destruct api; try discriminate.
  repeat match goal with
         | |- context [if ?b then _ else _] => destruct b
         end; intros H; inversion H; cbn; auto.
Qed.

Lemma detectByName_known toLowerCase modelSpace :
  (exists t, detectByName toLowerCase modelSpace = Returned t
             /\ In t knownSpaceTypes)
  \/ detectByName toLowerCase modelSpace
     = Thrown (unableToDetermine modelSpace).
Proof.
  unfold detectByName, knownSpaceTypes.
  repeat match goal with
         | |- context [if ?b then _ else _] => destruct b
         end; cbn; eauto 7.
Qed.

(** Without a valid manual override, detection gives one of the three
    backend types (from the endpoints, else from the name) or fails: with
    the error of the probe when the probe fails, with "Unable to determine
    space type" when neither endpoints nor name tell. *)
Lemma detection_known_or_error toLowerCase env view_api modelSpace detected :
  noValidOverride toLowerCase env = true ->
  let r := detectSpaceType toLowerCase env view_api modelSpace detected in
  (exists t, r = (Returned t, t) /\ In t knownSpaceTypes)
  \/ (exists e, r = (Thrown e, detected)).
Proof.
  unfold noValidOverride, detectSpaceType. intros H.
  apply negb_true_iff in H. rewrite H. cbv zeta.
  destruct view_api as [api|e]; [|eauto].
  destruct (detectByEndpoints api) as [t|] eqn:E.
  - left. exists t. split; [reflexivity|]. eapply detectByEndpoints_known, E.
  - destruct (detectByName_known toLowerCase modelSpace)
      as [(t & -> & Ht) | ->]; eauto.
Qed.

(** C9 at the override "unknown": with [MODEL_SPACE_TYPE=unknown] (in any
    letter case) detection returns "unknown" as the space type, without an
    error and without looking at endpoints or name; with the override unset
    the same space is detected from its endpoints, and a space that
    neither endpoints nor name identify makes detection fail. *)
Theorem detection_accepts_unknown_override :
  detectSpaceType lowerAscii (Some (str "UNKNOWN"))
    (Resolved (ApiNamedEndpoints [str "/make3d"])) (str "user/InstantMesh")
    SPACE_TYPE.UNKNOWN
  = (Returned SPACE_TYPE.UNKNOWN, SPACE_TYPE.UNKNOWN)
  /\ detectSpaceType lowerAscii None
       (Resolved (ApiNamedEndpoints [str "/make3d"])) (str "user/InstantMesh")
       SPACE_TYPE.UNKNOWN
     = (Returned SPACE_TYPE.INSTANTMESH, SPACE_TYPE.INSTANTMESH)
  /\ detectSpaceType lowerAscii None
       (Resolved (ApiNamedEndpoints [str "/predict"])) (str "user/TripoSR")
       SPACE_TYPE.UNKNOWN
     = (Thrown (unableToDetermine (str "user/TripoSR")), SPACE_TYPE.UNKNOWN).
Proof. repeat split; vm_compute; reflexivity. Qed.

(** When the probe itself fails (it is rejected, or the 30 s timeout wins
    the race), detection fails with that error; the name is not looked
    at. *)
Lemma detection_probe_failure_propagates toLowerCase e modelSpace detected :
  detectSpaceType toLowerCase None (Rejected e) modelSpace detected
  = (Thrown e, detected).
Proof. reflexivity. Qed.

(** The same for every runtime lower-casing: an override that lower-cases
    to "unknown" is returned as the detected type. *)
Lemma unknown_override_returned toLowerCase o view_api modelSpace detected :
  toLowerCase o = SPACE_TYPE.UNKNOWN ->
  detectSpaceType toLowerCase (Some o) view_api modelSpace detected
  = (Returned SPACE_TYPE.UNKNOWN, SPACE_TYPE.UNKNOWN).
Proof.
  intros H. unfold detectSpaceType. cbn. rewrite H. reflexivity.
Qed.

(* ===================================================================== *)
(** * Further properties of the reducer *)
(* ===================================================================== *)

Lemma gameState_forward env e w :
  gameState (forward env e w) = gameState w.
Proof. unfold forward. destruct (onChatEvent env); reflexivity. Qed.

Lemma gameState_schedule w :
  gameState (scheduleLoadSessionAssets w) = gameState w.
Proof. reflexivity. Qed.

Lemma code_handleEvent env e w :
  code (gameState (handleEvent env e w))
  = match e with
    | ev_code p => Some p
    | _ => code (gameState w)
    end.
Proof.
  destruct e; unfold handleEvent;
    cbn -[assetCompletedUpdate assetSessionCompleteUpdate
          assetErrorUpdate assetGeneratingUpdate];
    rewrite ?gameState_forward; cbn;
    case_payloads; rewrite ?gameState_forward; reflexivity.
Qed.

(** X1: across any sequence of events the generated [code] is the payload
    of the last 'code' event, and what it was before when there is none: no
    other event writes or clears it. *)
Theorem code_is_last_code_payload env events w :
  code (gameState (handleEvents env events w))
  = lastCode events (code (gameState w)).
Proof.
  revert w. induction events as [|e es IH]; intros w; [reflexivity|].
  rewrite handleEvents_cons, IH, code_handleEvent.
  unfold lastCode. cbn [fold_left]. destruct e; reflexivity.
Qed.

Ltac reduce_event e :=
  destruct e; unfold handleEvent;
  cbn -[assetCompletedUpdate assetSessionCompleteUpdate
        assetErrorUpdate assetGeneratingUpdate codeChunkUpdate
        finalSuggestions];
  rewrite ?gameState_forward; cbn -[codeChunkUpdate finalSuggestions];
  case_payloads; rewrite ?gameState_forward.

(** X2: the slices of the state are written by their own events only: an
    event that is not one of the five asset-lifecycle events leaves
    [assets] as it was, one that is not publish_status, publish_success or
    publish_error leaves [publisher] as it was, one that is neither
    suggestions nor error leaves [suggestions] as they were, and no event
    writes [agents]. *)
Theorem slices_written_by_their_events env e w :
  let s := gameState w in
  let s' := gameState (handleEvent env e w) in
  agents s' = agents s
  /\ (arr_includes assetLifecycleTypes (type e) = false ->
      assets s' = assets s)
  /\ (arr_includes publisherTypes (type e) = false ->
      publisher s' = publisher s)
  /\ (arr_includes suggestionTypes (type e) = false ->
      suggestions s' = suggestions s).
Proof.
  cbv zeta. split; [|split; [|split]]; try intros H.
  - reduce_event e; reflexivity.
  - reduce_event e; vm_compute in H; try discriminate H; reflexivity.
  - reduce_event e; vm_compute in H; try discriminate H; reflexivity.
  - reduce_event e; vm_compute in H; try discriminate H; reflexivity.
Qed.

(** X2 at a code event. *)
Lemma slices_written_by_their_events_witness :
  let s := gameState generated in
  let s' := gameState (handleEvent env0 (ev_code snake) generated) in
  agents s' = agents s /\ assets s' = assets s
  /\ publisher s' = publisher s /\ suggestions s' = suggestions s.
Proof.
  cbv zeta.
  destruct (slices_written_by_their_events env0 (ev_code snake) generated)
    as (Ha & Hassets & Hpub & Hsug).
  split; [exact Ha|].
  split; [apply Hassets; reflexivity|].
  split; [apply Hpub; reflexivity | apply Hsug; reflexivity].
Defined.

(** ** Asset accumulation *)

Lemma handleEvent_asset_completed env p w :
  gameState (handleEvent env (ev_asset_completed p) w)
  = assetCompletedUpdate env p (gameState w).
Proof.
  unfold handleEvent. cbn -[assetCompletedUpdate].
  destruct (_ && _); reflexivity.
Qed.

(** X3: a run of 'asset_completed' events appends one asset per event, in
    arrival order and with status 'completed', to the assets already there,
    and raises [progress.total_generated] by the number of events. *)
Theorem asset_completed_accumulates env payloads w :
  let a := assets (gameState w) in
  let a' := assets (gameState
                      (handleEvents env
                         (List.map ev_asset_completed payloads) w)) in
  exists added,
    Assets.assets a' = Assets.assets a ++ added
    /\ List.map AssetInfo.filename added
       = List.map CompletedData.filename payloads
    /\ Forall (fun x => AssetInfo.status x = asset_status_completed) added
    /\ Progress.total_generated (Assets.progress a')
       = (Progress.total_generated (Assets.progress a)
          + Z.of_nat (length payloads))%Z.
Proof.
  cbv zeta. revert w.
  induction payloads as [|p ps IH]; intros w.
  - exists []. cbn. rewrite app_nil_r. repeat split; [constructor | lia].
  - cbn [List.map]. rewrite handleEvents_cons.
    destruct (IH (handleEvent env (ev_asset_completed p) w))
      as (added & Ha & Hn & Hs & Ht).
    rewrite handleEvent_asset_completed in Ha, Ht.
    cbn [assetCompletedUpdate set_assets assets Assets.assets
         Assets.progress Progress.total_generated] in Ha, Ht.
    eexists (_ :: added). rewrite Ha, Ht, <- app_assoc.
    split; [reflexivity|]. cbn. rewrite Hn.
    repeat split; [constructor; [reflexivity | exact Hs] | lia].
Qed.

(** ** What the handler sends out *)

Lemma chat_detect e w : chat (detectOperationType e w) = chat w.
Proof.
  unfold detectOperationType.
  repeat match goal with
         | |- context [if ?b then _ else _] => destruct b
         end; reflexivity.
Qed.

Lemma refreshes_detect e w :
  refreshes (detectOperationType e w) = refreshes w.
Proof.
  unfold detectOperationType.
  repeat match goal with
         | |- context [if ?b then _ else _] => destruct b
         end; reflexivity.
Qed.

Lemma chat_handleEvent env e w :
  chat (handleEvent env e w)
  = chat w ++ (if onChatEvent env && forwarded e then [e] else []).
Proof.
  destruct e; unfold handleEvent, forwarded; cbv zeta;
    match goal with
    | |- context [detectOperationType ?e w] =>
        rewrite <- (chat_detect e w); generalize (detectOperationType e w)
    end; intros w1; unfold forward; destruct (onChatEvent env);
    cbn -[assetCompletedUpdate assetSessionCompleteUpdate
          assetErrorUpdate assetGeneratingUpdate codeChunkUpdate
          finalSuggestions nonblank_string];
    repeat match goal with
           | |- context [match ?x with _ => _ end] => destruct x
           end; cbn; rewrite ?app_nil_r; reflexivity.
Qed.

(** X4: the events handed to the chat are, in arrival order, the
    publish_message, command and error events and the explanation and
    features events whose payload is a non-blank string; nothing already
    handed over is dropped, and nothing is handed over when no chat handler
    was passed. *)
Theorem chat_receives_forwarded_events env events w :
  chat (handleEvents env events w)
  = chat w ++ (if onChatEvent env then List.filter forwarded events else []).
Proof.
  revert w. induction events as [|e es IH]; intros w.
  - cbn. destruct (onChatEvent env); rewrite app_nil_r; reflexivity.
  - rewrite handleEvents_cons, IH, chat_handleEvent. cbn [List.filter].
    destruct (onChatEvent env); cbn; [|rewrite app_nil_r; reflexivity].
    destruct (forwarded e); rewrite <- app_assoc; reflexivity.
Qed.

Lemma refreshes_handleEvent env e w :
  refreshes (handleEvent env e w)
  = (refreshes w + (if schedulesReload e then 1 else 0))%nat.
Proof.
  destruct e; unfold handleEvent, schedulesReload; cbv zeta;
    match goal with
    | |- context [detectOperationType ?e w] =>
        rewrite <- (refreshes_detect e w);
        generalize (detectOperationType e w)
    end; intros w1; unfold forward;
    cbn -[assetCompletedUpdate assetSessionCompleteUpdate
          assetErrorUpdate assetGeneratingUpdate codeChunkUpdate
          finalSuggestions nonblank_string str_eqb];
    repeat match goal with
           | |- context [match ?x with _ => _ end] => destruct x
           end; cbn; lia.
Qed.

(** X5: a deferred reload of the session's assets is scheduled once for
    every stream_complete event and once for every asset_session_complete
    event that reports status 'completed' with at least one asset, and for
    no other event. *)
Theorem reloads_scheduled env events w :
  refreshes (handleEvents env events w)
  = (refreshes w + length (List.filter schedulesReload events))%nat.
Proof.
  revert w. induction events as [|e es IH]; intros w; [cbn; lia|].
  rewrite handleEvents_cons, IH, refreshes_handleEvent. cbn [List.filter].
  destruct (schedulesReload e); cbn; lia.
Qed.

(** ** Invariants of the provider's state *)

Lemma str_eqb_eq a b : str_eqb a b = true <-> a = b.
Proof.
  revert b. induction a as [|x a IH]; intros [|y b]; cbn;
    try (split; [discriminate | discriminate]); [tauto|].
  rewrite andb_true_iff, N.eqb_eq, IH. split.
  - intros [-> ->]. reflexivity.
  - intros H. injection H as -> ->. auto.
Qed.

Lemma arr_includes_In l x : arr_includes l x = true <-> In x l.
Proof.
  unfold arr_includes. rewrite existsb_exists. split.
  - intros (y & Hy & E). apply str_eqb_eq in E. subst. exact Hy.
  - intros H. exists x. split; [exact H | apply str_eqb_eq; reflexivity].
Qed.

Lemma push_new_NoDup b l : NoDup l -> NoDup (push_new b l).
Proof.
  intros H. unfold push_new. destruct (arr_includes l b) eqn:E; [exact H|].
  apply NoDup_app. split; [exact H|]. split.
  - intros x Hx Hb. apply list_elem_of_In in Hx.
    apply list_elem_of_In in Hb. cbn in Hb. destruct Hb as [<-|[]].
    apply arr_includes_In in Hx. congruence.
  - repeat constructor. intros Hin. apply list_elem_of_In in Hin.
    destruct Hin.
Qed.

Lemma detect_slices e w :
  buildingStatus (gameState (detectOperationType e w))
  = buildingStatus (gameState w)
  /\ codeStream (gameState (detectOperationType e w))
     = codeStream (gameState w).
Proof.
  unfold detectOperationType.
  repeat match goal with
         | |- context [if ?b then _ else _] => destruct b
         end; split; reflexivity.
Qed.

Lemma codeChunk_checklist c s :
  checklistDistinct s -> checklistDistinct (codeChunkUpdate c s).
Proof.
  unfold checklistDistinct, codeChunkUpdate. cbn. intros H.
  assert (H0 : NoDup (if negb (Building.isBuilding (buildingStatus s))
                      then [bullet 0]
                      else Building.bullets (buildingStatus s))).
  { destruct (negb _); [|exact H]. repeat constructor.
    intros Hin. apply list_elem_of_In in Hin. destruct Hin. }
  repeat match goal with
         | |- context [if ?b || ?c || ?d then _ else _] =>
             destruct (b || c || d)
         end; repeat apply push_new_NoDup; exact H0.
Qed.

Lemma completion_checklist_distinct payload s :
  checklistDistinct (codeUpdate payload s).
Proof.
  unfold checklistDistinct. cbn.
  apply (bool_decide_unpack _). vm_compute. exact I.
Qed.

Lemma handleEvent_keeps_invariants env e w :
  flagsAgree (gameState w) /\ checklistDistinct (gameState w) ->
  flagsAgree (gameState (handleEvent env e w))
  /\ checklistDistinct (gameState (handleEvent env e w)).
Proof.
  intros [Hf Hc]. unfold flagsAgree, checklistDistinct in *.
  destruct (detect_slices e w) as [Hb Hs].
  rewrite <- Hb, <- Hs in Hf. rewrite <- Hb in Hc.
  destruct e; unfold handleEvent; cbv zeta;
    match goal with
    | |- context [detectOperationType ?e w] =>
        revert Hf Hc; generalize (detectOperationType e w)
    end; intros w1 Hf Hc; unfold forward; try destruct (onChatEvent env);
    cbn -[assetCompletedUpdate assetSessionCompleteUpdate
          assetErrorUpdate assetGeneratingUpdate codeChunkUpdate
          finalSuggestions nonblank_string codeUpdate];
    repeat match goal with
           | |- context [match ?x with _ => _ end] => destruct x
           end;
    try (split; [exact Hf | exact Hc]);
    try (split; [reflexivity | apply codeChunk_checklist; exact Hc]);
    try (split; [reflexivity | apply completion_checklist_distinct]);
    try (split; [reflexivity | constructor]).
Qed.

Lemma step_keeps_invariants w s :
  flagsAgree (gameState w) /\ checklistDistinct (gameState w) ->
  flagsAgree (gameState (step w s)) /\ checklistDistinct (gameState (step w s)).
Proof.
  intros H.
  destruct s as [env e| | msg | | | seen session response | update
                | agentName updates].
  - apply handleEvent_keeps_invariants, H.
  - destruct H as [_ Hc]. split; [reflexivity | exact Hc].
  - exact H.
  - split; [reflexivity | constructor].
  - split; [reflexivity | constructor].
  - destruct response; exact H.
  - exact H.
  - exact H.
Qed.

Lemma run_keeps_invariants steps : forall w,
  flagsAgree (gameState w) /\ checklistDistinct (gameState w) ->
  flagsAgree (gameState (fold_left step steps w))
  /\ checklistDistinct (gameState (fold_left step steps w)).
Proof.
  induction steps as [|s steps IH]; intros w H; [exact H|].
  cbn [fold_left]. apply IH, step_keeps_invariants, H.
Qed.

(** X6: in every state the provider can reach from its initial state, by
    events, new generations, failures, cancelling, clearing, asset reloads
    and updates of the status box or of an agent in any order,
    [buildingStatus.isBuilding] and [codeStream.isStreaming] have the same
    value. *)
Theorem streaming_flags_agree steps : flagsAgree (gameState (run steps)).
Proof.
  apply (run_keeps_invariants steps world0).
  split; [reflexivity | constructor].
Qed.

(** X7: in every state the provider can reach from its initial state the
    building checklist [buildingStatus.bullets] lists no entry twice. *)
Theorem building_checklist_has_no_duplicates steps :
  checklistDistinct (gameState (run steps)).
Proof.
  apply (run_keeps_invariants steps world0).
  split; [reflexivity | constructor].
Qed.

(** X8: when a new generation is started, what the previous one streamed
    stays in [codeStream.content] only until the first chunk that is not
    blank arrives; from then on the content is made of the new chunks
    alone. *)
Theorem new_generation_replaces_stream env payloads w :
  CodeStream.content
    (codeStream
       (gameState
          (handleEvents env (chunkEvents payloads)
             (setGameState generateGameStart w))))
  = match List.filter nonblank payloads with
    | [] => CodeStream.content (codeStream (gameState w))
    | kept => concat kept
    end.
Proof.
  rewrite chunks_content. cbn.
  destruct (List.filter nonblank payloads); reflexivity.
Qed.

(* ===================================================================== *)
(** * Properties of the helpers *)
(* ===================================================================== *)

(** ** Prompts *)

Lemma filter_firstn_Forall {A} (p : A -> bool) n l :
  Forall (fun x => p x = true) (firstn n (List.filter p l)).
Proof.
  revert n. induction l as [|x l IH]; intros n; cbn.
  - rewrite firstn_nil. constructor.
  - destruct (p x) eqn:E; [|apply IH].
    destruct n; cbn; constructor; [exact E | apply IH].
Qed.

Lemma sanitizePrompt_bounds prompt :
  (length (sanitizePrompt prompt) <= 500)%nat
  /\ Forall (fun c => isPromptChar c = true) (sanitizePrompt prompt).
Proof.
  split.
  - destruct prompt as [p|]; cbn; [|lia].
    destruct (truthy p); cbn; [|lia]. rewrite length_firstn. lia.
  - destruct prompt as [p|]; cbn; [|constructor].
    destruct (truthy p); [apply filter_firstn_Forall | constructor].
Qed.

(** X9: whatever it is given, [sanitizePrompt] returns at most 500 units,
    each of them a letter, digit, underscore, white space or one of
    [. , ! ? -]; a prompt that is not a string or is empty gives the empty
    string. *)
Theorem sanitizePrompt_is_clean prompt :
  (length (sanitizePrompt prompt) <= 500)%nat
  /\ Forall (fun c => isPromptChar c = true) (sanitizePrompt prompt)
  /\ sanitizePrompt None = []
  /\ sanitizePrompt (Some []) = [].
Proof.
  destruct (sanitizePrompt_bounds prompt) as [Hl Hc].
  repeat split; try reflexivity; assumption.
Qed.

Lemma filter_all {A} (p : A -> bool) l :
  forallb p l = true -> List.filter p l = l.
Proof.
  induction l as [|x l IH]; cbn; [reflexivity|].
  intros H. apply andb_true_iff in H. destruct H as [Hx Hl].
  rewrite Hx, IH by exact Hl. reflexivity.
Qed.

(** X10: a prompt of at most 500 units that has only allowed characters
    and neither starts nor ends in white space is returned as it is. *)
Theorem sanitizePrompt_keeps_clean_prompts p :
  forallb isPromptChar p = true -> trim p = p -> (length p <= 500)%nat ->
  sanitizePrompt (Some p) = p.
Proof.
  intros Hc Ht Hl. unfold sanitizePrompt.
  destruct p as [|c p]; [reflexivity|]. cbn [truthy].
  rewrite Ht, (filter_all _ _ Hc). apply firstn_all2. exact Hl.
Qed.

(** X10 at "pixel art sword". *)
Lemma sanitizePrompt_keeps_clean_prompts_witness :
  sanitizePrompt (Some (str "pixel art sword")) = str "pixel art sword".
Proof.
  apply sanitizePrompt_keeps_clean_prompts;
    [reflexivity | reflexivity | cbn; lia].
Defined.

(** X11: the prompt a tool handler goes on with, after the schema and the
    emptiness check, is not empty, has at most 500 units and has only
    allowed characters; a prompt without any allowed character is
    refused. *)
Theorem accepted_prompt_is_clean prompt s :
  acceptPrompt prompt = Returned s ->
  s <> [] /\ (length s <= 500)%nat
  /\ Forall (fun c => isPromptChar c = true) s.
Proof.
  unfold acceptPrompt. destruct prompt as [p|]; [|discriminate].
  destruct (_ || _); [discriminate|].
  destruct (sanitizePrompt_bounds (Some p)) as (Hl & Hc).
  cbv zeta. generalize dependent (sanitizePrompt (Some p)).
  intros sp Hl Hc. destruct sp as [|c sp]; cbn [truthy]; [discriminate|].
  intros H. injection H as <-.
  repeat split; [discriminate | exact Hl | exact Hc].
Qed.

(** X11 at a prompt with characters that are removed. *)
Lemma accepted_prompt_is_clean_witness :
  str "a red dragon" <> []
  /\ (length (str "a red dragon") <= 500)%nat
  /\ Forall (fun c => isPromptChar c = true) (str "a red dragon").
Proof.
  apply (accepted_prompt_is_clean (Some (str "  a <red> dragon*  "))).
  reflexivity.
Defined.

(* ===================================================================== *)
(** * Resource URIs *)
(* ===================================================================== *)

Section MatcherFacts.

Context {R : Type}.

(** A literal matches exactly itself. *)
Lemma rmatch_Lit inp lit : forall i rest c (k : nat -> captures -> option R),
  skipn i inp = lit ++ rest ->
  rmatch inp (Lit lit) i c k = k (i + length lit)%nat c.
Proof.
  induction lit as [|x lit IH]; intros i rest c k H; cbn.
  - rewrite Nat.add_0_r. reflexivity.
  - rewrite nth_error_skipn_0, H. cbn. rewrite N.eqb_refl.
    rewrite (IH (S i) rest).
    + f_equal. lia.
    + rewrite skipn_S_tl, H. reflexivity.
Qed.

(** One or more units of a class: the longest run first. *)
Lemma rmatch_Plus inp p i c (k : nat -> captures -> option R) :
  rmatch inp (Plus p) i c k
  = match run_len p (skipn i inp) with
    | O => None
    | S n => backoff (fun j => k j c) (S i) n
    end.
Proof.
  unfold Plus. cbn [rmatch]. rewrite nth_error_skipn_0, skipn_S_tl.
  destruct (skipn i inp) as [|x t]; cbn; [reflexivity|].
  destruct (p x); reflexivity.
Qed.

End MatcherFacts.

Lemma run_len_all p (u rest : list N) :
  forallb p u = true ->
  match rest with x :: _ => p x = false | [] => True end ->
  run_len p (u ++ rest) = length u.
Proof.
  intros Hu Hr. induction u as [|x u IH]; cbn in *.
  - destruct rest as [|y rest]; cbn; [reflexivity|]. rewrite Hr. reflexivity.
  - apply andb_true_iff in Hu as [Hx Hu]. rewrite Hx, IH; auto.
Qed.

Section PlusFacts.

Context {R : Type}.

(** When the continuation accepts the longest run, that is the match. *)
Lemma rmatch_Plus_longest inp p i (u rest : list N) c (k : nat -> captures -> option R) r :
  skipn i inp = u ++ rest -> u <> [] -> forallb p u = true ->
  match rest with x :: _ => p x = false | [] => True end ->
  k (i + length u)%nat c = Some r ->
  rmatch inp (Plus p) i c k = Some r.
Proof.
  intros Hs Hu Hp Hr Hk. rewrite rmatch_Plus, Hs, (run_len_all p u rest Hp Hr).
  destruct u as [|x u]; [congruence|]. cbn [length].
  apply backoff_first. rewrite <- Hk. f_equal. cbn [length]. lia.
Qed.

(** When the continuation refuses every run, there is no match. *)
Lemma rmatch_Plus_none inp p i c (k : nat -> captures -> option R) :
  (forall m, (1 <= m <= run_len p (skipn i inp))%nat ->
             k (i + m)%nat c = None) ->
  rmatch inp (Plus p) i c k = None.
Proof.
  intros H. rewrite rmatch_Plus.
  destruct (run_len p (skipn i inp)) as [|n]; [reflexivity|].
  apply backoff_none. intros m Hm.
  replace (S i + m)%nat with (i + S m)%nat by lia. apply H. lia.
Qed.

End PlusFacts.

Lemma run_len_forallb p (u : list N) : forallb p u = true -> run_len p u = length u.
Proof.
  intros H. rewrite <- (app_nil_r u) at 1. apply run_len_all; [exact H|exact I].
Qed.

Lemma parse_typed ty id :
  ty <> [] -> noSlash ty = true -> id <> [] -> oneLine id = true ->
  parseResourceUri (str "asset://" ++ ty ++ str "/" ++ id)
  = Some (Some ty, id).
Proof.
  intros Hty Hns Hid Hol. unfold parseResourceUri, match_whole, re_resourceUri.
  cbn [rmatch].
  rewrite (rmatch_Lit _ _ 0 (ty ++ str "/" ++ id)); [|reflexivity].
  change (0 + length (str "asset://"))%nat with 8%nat.
  unfold Opt. cbn [rmatch].
  set (inp := str "asset://" ++ ty ++ str "/" ++ id).
  erewrite (rmatch_Plus_longest inp notSlash 8 ty (str "/" ++ id));
    [ | reflexivity | exact Hty | exact Hns | reflexivity | ].
  2:{ rewrite nth_error_skipn_0.
      change (skipn (8 + length ty) inp)
        with (skipn (length ty) (ty ++ str "/" ++ id)).
      rewrite drop_app_length.
      change (str "/" ++ id) with (47 :: id). cbv iota beta.
      rewrite N.eqb_refl.
      apply (rmatch_Plus_longest inp dot (S (8 + length ty)) id []);
        [ | exact Hid | exact Hol | exact I | ].
      - rewrite app_nil_r.
        change (skipn (S (8 + length ty)) inp)
          with (skipn (S (length ty)) (ty ++ 47 :: id)).
        rewrite skipn_S_tl, drop_app_length. reflexivity.
      - replace (S (8 + length ty) + length id)%nat with (length inp).
        + rewrite Nat.eqb_refl. reflexivity.
        + unfold inp. rewrite !length_app. cbn. lia. }
  cbn [group Nat.eqb default].
  replace (8 + length ty - 8)%nat with (length ty) by lia.
  change (skipn 8 inp) with (ty ++ 47 :: id).
  change (skipn (S (8 + length ty)) inp)
    with (skipn (S (length ty)) (ty ++ 47 :: id)).
  rewrite take_app_length, skipn_S_tl, drop_app_length.
  cbn [tl]. unfold Datatypes.id. rewrite firstn_all2; [reflexivity|].
  unfold inp. rewrite !length_app. cbn. lia.
Qed.

Lemma nth_error_noSlash (s : list N) m x :
  noSlash s = true -> nth_error s m = Some x -> (47 =? x) = false.
Proof.
  revert m. induction s as [|c s IH]; intros [|m]; cbn; try discriminate;
    intros H E; apply andb_true_iff in H as [Hc Hs].
  - injection E as ->. unfold notSlash in Hc. apply negb_true_iff in Hc.
    rewrite N.eqb_sym. exact Hc.
  - eapply IH; eauto.
Qed.

Lemma parse_plain id :
  id <> [] -> noSlash id = true -> oneLine id = true ->
  parseResourceUri (str "asset://" ++ id) = Some (None, id).
Proof.
  intros Hid Hns Hol. unfold parseResourceUri, match_whole, re_resourceUri.
  cbn [rmatch].
  rewrite (rmatch_Lit _ _ 0 id); [|reflexivity].
  change (0 + length (str "asset://"))%nat with 8%nat.
  unfold Opt. cbn [rmatch].
  set (inp := str "asset://" ++ id).
  rewrite rmatch_Plus_none.
  2:{ intros m _. rewrite nth_error_skipn_0.
      change (skipn (8 + m) inp) with (skipn m id).
      rewrite <- nth_error_skipn_0.
      destruct (nth_error id m) as [x|] eqn:E; [|reflexivity].
      rewrite (nth_error_noSlash id m x Hns E). reflexivity. }
  erewrite (rmatch_Plus_longest inp dot 8 id []);
    [ | rewrite app_nil_r; reflexivity | exact Hid | exact Hol | exact I | ].
  2:{ replace (8 + length id)%nat with (length inp) by reflexivity.
      rewrite Nat.eqb_refl. reflexivity. }
  cbn [group Nat.eqb default]. change (skipn 8 inp) with id.
  unfold Datatypes.id. rewrite firstn_all2; [reflexivity|].
  unfold inp. rewrite length_app. cbn. lia.
Qed.

(** ** [split], [includes] and the last part of a path *)

Lemma includes_unit (s : list N) c : includes s [c] = existsb (N.eqb c) s.
Proof.
  induction s as [|y s IH]; cbn; [reflexivity|].
  rewrite IH, andb_true_r. reflexivity.
Qed.

Lemma includes_slash (s : list N) : includes s (str "/") = negb (noSlash s).
Proof.
  change (str "/") with [47]. rewrite includes_unit.
  induction s as [|y s IH]; cbn; [reflexivity|].
  rewrite IH. unfold notSlash. rewrite negb_andb, negb_involutive, N.eqb_sym.
  reflexivity.
Qed.

Lemma split_cons sep (s : list N) : exists l ls, split sep s = l :: ls.
Proof.
  induction s as [|c s (l & ls & E)]; cbn; [eauto|].
  destruct (c =? sep); [eauto|]. rewrite E. eauto.
Qed.

Lemma split_app sep (a b : list N) :
  split sep (a ++ sep :: b) = split sep a ++ split sep b.
Proof.
  induction a as [|c a IH]; cbn.
  - rewrite N.eqb_refl. reflexivity.
  - destruct (c =? sep); [rewrite IH; reflexivity|].
    rewrite IH. destruct (split_cons sep a) as (l & ls & E). rewrite E.
    reflexivity.
Qed.

Lemma split_whole sep (s : list N) :
  forallb (fun c => negb (c =? sep)) s = true -> split sep s = [s].
Proof.
  induction s as [|c s IH]; cbn; [reflexivity|]. intros H.
  apply andb_true_iff in H as [Hc Hs]. apply negb_true_iff in Hc.
  rewrite Hc, (IH Hs). reflexivity.
Qed.

Lemma split_parts sep (s : list N) :
  Forall (fun part => forallb (fun c => negb (c =? sep)) part = true)
    (split sep s).
Proof.
  induction s as [|c s IH]; cbn; [repeat constructor|].
  destruct (c =? sep) eqn:E; [constructor; [reflexivity | exact IH]|].
  destruct (split_cons sep s) as (l & ls & El). rewrite El in *.
  inversion IH; subst. constructor; [|assumption]. cbn. rewrite E. assumption.
Qed.

Lemma last_app_cons {A} (l : list A) x l' d :
  List.last (l ++ x :: l') d = List.last (x :: l') d.
Proof.
  induction l as [|y l IH]; [reflexivity|].
  cbn [app]. destruct l; cbn in *; exact IH.
Qed.

Lemma last_Forall {A} (P : A -> Prop) l d :
  Forall P l -> P d -> P (List.last l d).
Proof.
  intros H Hd. induction H as [|x l Hx Hl IH]; cbn; [exact Hd|].
  destruct l; [exact Hx | exact IH].
Qed.

(** X12: [parseResourceUri] inverts both forms of resource URI: from
    asset://type/id, with a non-empty type without a slash, it gives the
    type and the id, and from asset://id, with an id without a slash, the id
    and no type; the id is non-empty and has no line terminator. *)
Theorem parseResourceUri_inverts_uris ty id :
  id <> [] -> oneLine id = true ->
  (ty <> [] -> noSlash ty = true ->
   parseResourceUri (str "asset://" ++ ty ++ str "/" ++ id)
   = Some (Some ty, id))
  /\ (noSlash id = true ->
      parseResourceUri (str "asset://" ++ id) = Some (None, id)).
Proof.
  intros Hid Hol. split.
  - intros Hty Hns. apply parse_typed; assumption.
  - intros Hns. apply parse_plain; assumption.
Qed.

(** X12 at the type "3d" and the file name "3d_model_x.glb". *)
Lemma parseResourceUri_inverts_uris_witness :
  parseResourceUri (str "asset://3d/3d_model_x.glb")
  = Some (Some (str "3d"), str "3d_model_x.glb")
  /\ parseResourceUri (str "asset://3d_model_x.glb")
     = Some (None, str "3d_model_x.glb").
Proof.
  destruct (parseResourceUri_inverts_uris (str "3d") (str "3d_model_x.glb"))
    as [Ht Hp]; [discriminate | reflexivity |].
  split; [apply Ht; [discriminate | reflexivity] | apply Hp; reflexivity].
Defined.

(** X13: the file name the read handler resolves a URI to never contains a
    slash, whatever the URI. *)
Theorem resolved_name_has_no_slash uri n :
  resourceFilename uri = Returned n -> noSlash n = true.
Proof.
  unfold resourceFilename. destruct (startsWith _ uri); [|discriminate].
  destruct (parseResourceUri uri) as [[type id]|]; [|discriminate].
  cbv zeta.
  generalize (if truthy_opt type && includes id (str "/") then id
              else if truthy_opt type then default [] type ++ str "/" ++ id
                   else id).
  intros filename H. injection H as <-.
  destruct (includes filename (str "/")) eqn:E.
  - apply (last_Forall (fun part => noSlash part = true));
      [apply (split_parts 47) | reflexivity].
  - rewrite includes_slash in E. apply negb_false_iff in E. exact E.
Qed.

(** X13 at a URI with several slashes. *)
Lemma resolved_name_has_no_slash_witness : noSlash (str "passwd") = true.
Proof.
  apply (resolved_name_has_no_slash (str "asset://a/../../etc/passwd")).
  reflexivity.
Defined.

Lemma split_keeps q sep (s : list N) :
  forallb q s = true ->
  Forall (fun part => forallb q part = true) (split sep s).
Proof.
  induction s as [|c s IH]; cbn; intros H; [repeat constructor|].
  apply andb_true_iff in H as [Hc Hs]. specialize (IH Hs).
  destruct (c =? sep); [constructor; [reflexivity | exact IH]|].
  destruct (split_cons sep s) as (l & ls & El). rewrite El in *.
  inversion IH; subst. constructor; [|assumption]. cbn. rewrite Hc. assumption.
Qed.

Lemma partOrUnknown_keeps q (parts : list jsstring) i :
  Forall (fun part => forallb q part = true) parts ->
  forallb q (str "unknown") = true ->
  partOrUnknown parts i <> [] /\ forallb q (partOrUnknown parts i) = true.
Proof.
  intros H Hu. unfold partOrUnknown.
  assert (Hne : str "unknown" <> []) by (vm_compute; discriminate).
  destruct (nth_error parts i) as [p|] eqn:E; [|split; [exact Hne|exact Hu]].
  destruct p as [|c p]; cbn [truthy]; [split; [exact Hne|exact Hu]|].
  split; [discriminate|].
  apply nth_error_In in E. rewrite List.Forall_forall in H. apply (H _ E).
Qed.

Lemma resourceFilename_typed ty name :
  ty <> [] -> noSlash ty = true ->
  name <> [] -> noSlash name = true -> oneLine name = true ->
  resourceFilename (str "asset://" ++ ty ++ str "/" ++ name) = Returned name.
Proof.
  intros Hty Hts Hn Hns Hol. unfold resourceFilename.
  change (startsWith (str "asset://")
            (str "asset://" ++ ty ++ str "/" ++ name)) with true.
  cbv iota. rewrite (parse_typed ty name Hty Hts Hn Hol). cbv zeta.
  rewrite (includes_slash name), Hns.
  destruct ty as [|t ty]; [congruence|]. cbn [truthy_opt truthy negb andb].
  cbn [default]. unfold Datatypes.id.
  rewrite includes_slash.
  replace (noSlash ((t :: ty) ++ str "/" ++ name)) with false.
  2:{ unfold noSlash. rewrite forallb_app. cbn [app str forallb].
      change (str "/") with [47]. cbn [app forallb].
      change (notSlash 47) with false. rewrite andb_false_r. reflexivity. }
  cbn [negb]. change (str "/" ++ name) with (47 :: name).
  rewrite split_app, (split_whole 47 name Hns).
  rewrite last_app_cons. reflexivity.
Qed.

(** X14: a file whose name is not empty and has neither a slash nor a line
    terminator is found again by reading the URI it is listed under, and by
    reading the URI asset://name that saving it returned. *)
Theorem listed_and_saved_uris_read_back name ctime size :
  name <> [] -> noSlash name = true -> oneLine name = true ->
  resourceFilename (r_uri (toResource (mkFile name ctime size)))
  = Returned name
  /\ resourceFilename (str "asset://" ++ name) = Returned name.
Proof.
  intros Hn Hns Hol. split.
  - cbn [toResource r_uri f_name].
    destruct (partOrUnknown_keeps notSlash (split 95 name) 0) as [Hne Hs];
      [apply split_keeps; exact Hns | reflexivity |].
    apply resourceFilename_typed; assumption.
  - unfold resourceFilename.
    change (startsWith (str "asset://") (str "asset://" ++ name)) with true.
    cbv iota. rewrite (parse_plain name Hn Hns Hol). cbv zeta.
    cbn [truthy_opt andb]. rewrite includes_slash, Hns. reflexivity.
Qed.

(** X14 at "3d_model_x.glb". *)
Lemma listed_and_saved_uris_read_back_witness :
  resourceFilename
    (r_uri (toResource (mkFile (str "3d_model_x.glb") (str "2025") 10)))
  = Returned (str "3d_model_x.glb")
  /\ resourceFilename (str "asset://3d_model_x.glb")
     = Returned (str "3d_model_x.glb").
Proof.
  apply listed_and_saved_uris_read_back;
    [discriminate | reflexivity | reflexivity].
Defined.

(* ===================================================================== *)
(** * Saved files as resources *)
(* ===================================================================== *)

(** X15: a file saved under a prefix of the form a_b (as in "2d_asset" and
    "3d_model") is listed with asset type a and tool origin b, whatever
    the name of the tool that made it, and under the URI
    asset://a/<file name>. *)
Theorem saved_file_listing a b ext toolName timestamp uniqueId ctime size :
  a <> [] -> b <> [] -> noUnderscore a = true -> noUnderscore b = true ->
  let name :=
    generateUniqueFilename (a ++ str "_" ++ b) ext toolName timestamp
      uniqueId in
  let r := toResource (mkFile name ctime size) in
  r_assetType r = a /\ r_toolOrigin r = b
  /\ r_uri r = str "asset://" ++ a ++ str "/" ++ name.
Proof.
  intros Ha Hb Hua Hub name r.
  assert (E : exists rest, split 95 name = a :: b :: rest).
  { unfold name, generateUniqueFilename. change (str "_") with [95].
    rewrite <- !app_assoc. cbn [app].
    rewrite split_app, split_app, (split_whole 95 a Hua),
      (split_whole 95 b Hub).
    cbn [app]. eauto. }
  destruct E as [rest E].
  assert (E0 : r_assetType r = a).
  { unfold r. cbn [toResource r_assetType f_name]. rewrite E.
    destruct a; [congruence | reflexivity]. }
  split; [exact E0|]. split.
  - unfold r. cbn [toResource r_toolOrigin f_name]. rewrite E.
    destruct b; [congruence | reflexivity].
  - rewrite <- E0 at 1. reflexivity.
Qed.

(** X15 at the prefix "2d_asset" of the tool generate_2d_asset. *)
Lemma saved_file_listing_witness :
  let name :=
    generateUniqueFilename (str "2d" ++ str "_" ++ str "asset") (str "png")
      (str "generate_2d_asset") 1700000000000 (str "a1b2c3d4") in
  let r := toResource (mkFile name (str "2025") 10) in
  r_assetType r = str "2d" /\ r_toolOrigin r = str "asset"
  /\ r_uri r = str "asset://" ++ str "2d" ++ str "/" ++ name.
Proof.
  apply saved_file_listing;
    [discriminate | discriminate | reflexivity | reflexivity].
Defined.

Lemma startsWith_app (p s : list N) : startsWith p (p ++ s) = true.
Proof.
  induction p as [|x p IH]; [reflexivity|]. cbn. rewrite N.eqb_refl. exact IH.
Qed.

Lemma endsWith_app (s suffix : list N) : endsWith (s ++ suffix) suffix = true.
Proof. unfold endsWith. rewrite rev_app_distr. apply startsWith_app. Qed.

Lemma getMimeType_png (s : list N) :
  getMimeType (s ++ str ".png") = str "image/png".
Proof. unfold getMimeType. rewrite endsWith_app. reflexivity. Qed.

Lemma getMimeType_jpg (s : list N) :
  getMimeType (s ++ str ".jpg") = str "image/jpeg".
Proof.
  unfold getMimeType. rewrite (endsWith_app s (str ".jpg")).
  replace (endsWith (s ++ str ".jpg") (str ".png")) with false;
    [reflexivity|].
  unfold endsWith. rewrite rev_app_distr. reflexivity.
Qed.

Lemma getMimeType_obj (s : list N) :
  getMimeType (s ++ str ".obj") = str "model/obj".
Proof.
  unfold getMimeType. rewrite (endsWith_app s (str ".obj")).
  replace (endsWith (s ++ str ".obj") (str ".png")) with false
    by (unfold endsWith; rewrite rev_app_distr; reflexivity).
  replace (endsWith (s ++ str ".obj") (str ".jpg")) with false
    by (unfold endsWith; rewrite rev_app_distr; reflexivity).
  replace (endsWith (s ++ str ".obj") (str ".jpeg")) with false
    by (unfold endsWith; rewrite rev_app_distr; reflexivity).
  reflexivity.
Qed.

Lemma getMimeType_glb (s : list N) :
  getMimeType (s ++ str ".glb") = str "model/gltf-binary".
Proof.
  unfold getMimeType. rewrite (endsWith_app s (str ".glb")).
  replace (endsWith (s ++ str ".glb") (str ".png")) with false
    by (unfold endsWith; rewrite rev_app_distr; reflexivity).
  replace (endsWith (s ++ str ".glb") (str ".jpg")) with false
    by (unfold endsWith; rewrite rev_app_distr; reflexivity).
  replace (endsWith (s ++ str ".glb") (str ".jpeg")) with false
    by (unfold endsWith; rewrite rev_app_distr; reflexivity).
  replace (endsWith (s ++ str ".glb") (str ".obj")) with false
    by (unfold endsWith; rewrite rev_app_distr; reflexivity).
  reflexivity.
Qed.

Lemma generateUniqueFilename_ext prefix ext toolName timestamp uniqueId :
  exists stem,
    generateUniqueFilename prefix ext toolName timestamp uniqueId
    = stem ++ str "." ++ ext.
Proof.
  unfold generateUniqueFilename.
  exists (prefix ++ str "_" ++ toolName ++ str "_" ++ showZ timestamp
          ++ str "_" ++ uniqueId).
  rewrite <- !app_assoc. reflexivity.
Qed.

Lemma imageExtension_isJpegData buffer :
  imageExtension buffer = if isJpegData buffer then str "jpg" else str "png".
Proof.
  unfold imageExtension, detectImageFormat, isJpegData.
  destruct buffer as [[|b0 [|b1 [|b2 [|b3 bytes]]]]|]; try reflexivity.
  cbn [length Nat.ltb Nat.leb].
  destruct ((b0 =? 255) && (b1 =? 216) && (b2 =? 255)); [reflexivity|].
  destruct (_ && _); reflexivity.
Qed.

(** X16: a generated image is saved, and then listed, as image/jpeg exactly
    when its data has at least four bytes and begins FF D8 FF; any other
    data, PNG or not, is saved and listed as image/png.  Models saved with
    the extensions obj and glb are listed as model/obj and
    model/gltf-binary. *)
Theorem saved_files_mime_types prefix toolName timestamp uniqueId buffer :
  let saved ext :=
    generateUniqueFilename prefix ext toolName timestamp uniqueId in
  getMimeType (saved (imageExtension buffer))
  = (if isJpegData buffer then str "image/jpeg" else str "image/png")
  /\ getMimeType (saved (str "obj")) = str "model/obj"
  /\ getMimeType (saved (str "glb")) = str "model/gltf-binary".
Proof.
  intros saved. unfold saved. repeat split.
  - rewrite imageExtension_isJpegData.
    destruct (generateUniqueFilename_ext prefix
                (if isJpegData buffer then str "jpg" else str "png")
                toolName timestamp uniqueId) as [stem ->].
    destruct (isJpegData buffer).
    + change (stem ++ str "." ++ str "jpg") with (stem ++ str ".jpg").
      apply getMimeType_jpg.
    + change (stem ++ str "." ++ str "png") with (stem ++ str ".png").
      apply getMimeType_png.
  - destruct (generateUniqueFilename_ext prefix (str "obj") toolName
                timestamp uniqueId) as [stem ->].
    apply getMimeType_obj.
  - destruct (generateUniqueFilename_ext prefix (str "glb") toolName
                timestamp uniqueId) as [stem ->].
    apply getMimeType_glb.
Qed.

(* ===================================================================== *)
(** * The rate limiter *)
(* ===================================================================== *)

Lemma checkRateLimit_other clientId limit windowMs now rateLimits k :
  k <> clientKeyOf clientId ->
  snd (checkRateLimit clientId limit windowMs now rateLimits) !! k
  = rateLimits !! k.
Proof.
  intros Hk. unfold checkRateLimit. cbv zeta.
  destruct (rateLimits !! clientKeyOf clientId) as [[count resetAt]|];
    [destruct (resetAt <? now)%Z; [|destruct (limit <=? count)%Z]|];
    cbn [snd]; try reflexivity; apply lookup_insert_ne; congruence.
Qed.

Lemma checkRateLimits_other clientId limit windowMs times k :
  k <> clientKeyOf clientId ->
  forall rateLimits,
    snd (checkRateLimits clientId limit windowMs times rateLimits) !! k
    = rateLimits !! k.
Proof.
  intros Hk. induction times as [|now times IH]; intros rateLimits;
    [reflexivity|].
  cbn [checkRateLimits].
  pose proof (checkRateLimit_other clientId limit windowMs now rateLimits k Hk)
    as H1.
  destruct (checkRateLimit clientId limit windowMs now rateLimits)
    as [ok rl1].
  specialize (IH rl1).
  destruct (checkRateLimits clientId limit windowMs times rl1) as [oks rl2].
  cbn [snd] in *. congruence.
Qed.

Ltac ltb_cases :=
  repeat match goal with
         | |- context [(?a <? ?b)%Z] => destruct (Z.ltb_spec a b)
         end;
  try reflexivity; try lia.

(** Inside a window the calls are counted up to the limit. *)
Lemma checkRateLimits_window clientId limit windowMs times :
  forall rateLimits count resetAt,
    rateLimits !! clientKeyOf clientId = Some (count, resetAt) ->
    notAfter resetAt times = true ->
    fst (checkRateLimits clientId limit windowMs times rateLimits)
    = List.map (fun j => (count + Z.of_nat j <? limit)%Z)
        (seq 0 (length times)).
Proof.
  induction times as [|now times IH]; intros rateLimits count resetAt Hl Ht;
    [reflexivity|].
  cbn [notAfter forallb] in Ht. apply andb_true_iff in Ht as [Hnow Ht].
  cbn [checkRateLimits length seq List.map].
  unfold checkRateLimit at 1. cbv zeta. rewrite Hl.
  apply Z.leb_le in Hnow.
  destruct (Z.ltb_spec resetAt now) as [Hr|_]; [lia|].
  destruct (Z.leb_spec limit count) as [Hc|Hc].
  - specialize (IH rateLimits count resetAt Hl Ht).
    destruct (checkRateLimits clientId limit windowMs times rateLimits)
      as [oks rl2].
    cbn [fst] in *. rewrite IH. f_equal; [ltb_cases|].
    rewrite <- seq_shift, List.map_map. apply List.map_ext_in.
    intros j _. ltb_cases.
  - specialize (IH (<[clientKeyOf clientId := ((count + 1)%Z, resetAt)]>
                      rateLimits) (count + 1)%Z resetAt).
    rewrite lookup_insert_eq in IH. specialize (IH eq_refl Ht).
    destruct (checkRateLimits clientId limit windowMs times _) as [oks rl2].
    cbn [fst] in *. rewrite IH. f_equal; [ltb_cases|].
    rewrite <- seq_shift, List.map_map. apply List.map_ext_in.
    intros j _. ltb_cases.
Qed.

(** X17: of the calls a client makes within one window, starting with its
    first call ever, the first is always let through and call number j
    (counting from 0) is let through exactly when j is below the limit: at
    most max(1, limit) calls pass.  The counters of the other clients are
    left as they were. *)
Theorem rate_limit_within_window clientId limit windowMs now times rateLimits :
  rateLimits !! clientKeyOf clientId = None ->
  notAfter (now + windowMs) times = true ->
  let r := checkRateLimits clientId limit windowMs (now :: times) rateLimits in
  fst r
  = List.map (fun j => (j =? 0)%nat || (Z.of_nat j <? limit)%Z)
      (seq 0 (S (length times)))
  /\ forall k, k <> clientKeyOf clientId -> snd r !! k = rateLimits !! k.
Proof.
  intros Hl Ht r. split.
  - unfold r. cbn [checkRateLimits seq List.map].
    unfold checkRateLimit at 1. cbv zeta. rewrite Hl.
    pose proof (checkRateLimits_window clientId limit windowMs times
                  (<[clientKeyOf clientId := (1%Z, (now + windowMs)%Z)]>
                     rateLimits) 1 (now + windowMs)%Z) as H.
    rewrite lookup_insert_eq in H. specialize (H eq_refl Ht).
    destruct (checkRateLimits clientId limit windowMs times _) as [oks rl2].
    cbn [fst] in *. rewrite H. f_equal.
    rewrite <- seq_shift, List.map_map. apply List.map_ext_in.
    intros j _. cbn [Nat.eqb orb]. ltb_cases.
  - intros k Hk. apply checkRateLimits_other. exact Hk.
Qed.

(** X17 at five calls in one window with the limit 3. *)
Lemma rate_limit_within_window_witness :
  fst (checkRateLimits (Some (str "alice")) 3 60000 [0; 10; 20; 30; 40]%Z ∅)
  = [true; true; true; false; false].
Proof.
  refine (proj1 (rate_limit_within_window (Some (str "alice")) 3 60000 0
                   [10; 20; 30; 40]%Z ∅ _ _));
    [vm_compute; reflexivity | reflexivity].
Defined.

(* ===================================================================== *)
(** * The format of a model space *)
(* ===================================================================== *)

Section PlusInversion.

Context {R : Type}.

Lemma backoff_some (k : nat -> option R) i n r :
  backoff k i n = Some r -> exists m, (m <= n)%nat /\ k (i + m)%nat = Some r.
Proof.
  induction n as [|n IH]; cbn.
  - destruct (k (i + 0)%nat) eqn:E; [|discriminate].
    intros H. exists O. split; [lia|]. congruence.
  - destruct (k (i + S n)%nat) eqn:E.
    + intros H. exists (S n). split; [lia|]. congruence.
    + intros H. destruct (IH H) as (m & Hm & Hk). exists m. split; [lia|].
      exact Hk.
Qed.

Lemma rmatch_Plus_some inp p i c (k : nat -> captures -> option R) r :
  rmatch inp (Plus p) i c k = Some r ->
  exists m, (1 <= m <= run_len p (skipn i inp))%nat
            /\ k (i + m)%nat c = Some r.
Proof.
  rewrite rmatch_Plus. destruct (run_len p (skipn i inp)) as [|n];
    [discriminate|].
  intros H. apply backoff_some in H as (m & Hm & Hk).
  exists (S m). split; [lia|].
  replace (i + S m)%nat with (S i + m)%nat by lia. exact Hk.
Qed.

End PlusInversion.

Lemma run_len_firstn p (s : list N) m :
  (m <= run_len p s)%nat -> forallb p (firstn m s) = true.
Proof.
  revert m. induction s as [|c s IH]; intros [|m]; cbn; try reflexivity;
    try lia.
  destruct (p c); [|lia]. intros H. cbn. apply IH. lia.
Qed.

Lemma run_len_le p (s : list N) : (run_len p s <= length s)%nat.
Proof.
  induction s as [|c s IH]; cbn; [lia|]. destruct (p c); lia.
Qed.

Lemma isSpaceChar_notSlash (u : list N) :
  forallb isSpaceChar u = true -> noSlash u = true.
Proof.
  unfold noSlash. induction u as [|c u IH]; cbn; [reflexivity|]. intros H.
  apply andb_true_iff in H as [Hc Hu]. rewrite (IH Hu), andb_true_r.
  unfold notSlash. destruct (N.eqb_spec c 47) as [->|]; [|reflexivity].
  vm_compute in Hc. discriminate.
Qed.

Lemma match_whole_space_sound s c :
  match_whole re_space s = Some c ->
  exists u n, s = u ++ str "/" ++ n
              /\ forallb isSpaceChar u = true /\ forallb isSpaceChar n = true.
Proof.
  unfold match_whole, re_space. cbn [rmatch]. intros H.
  apply rmatch_Plus_some in H as (m1 & Hm1 & H).
  change (skipn 0 s) with s in Hm1. cbn [Nat.add] in H.
  rewrite nth_error_skipn_0 in H.
  destruct (skipn m1 s) as [|x rest] eqn:Es; [discriminate|].
  destruct (N.eqb_spec 47 x) as [<-|]; [|discriminate].
  apply rmatch_Plus_some in H as (m2 & Hm2 & H).
  destruct (Nat.eqb_spec (S m1 + m2) (length s)) as [Hlen|]; [|discriminate].
  assert (Er : skipn (S m1) s = rest) by (rewrite skipn_S_tl, Es; reflexivity).
  rewrite Er in Hm2.
  exists (firstn m1 s), rest. repeat split.
  - change (str "/" ++ rest) with (47 :: rest).
    rewrite <- Es. symmetry. apply firstn_skipn.
  - apply run_len_firstn. lia.
  - assert (Hl : length rest = m2).
    { rewrite <- Er, length_skipn. lia. }
    rewrite <- (firstn_all rest), Hl. apply run_len_firstn. lia.
Qed.

Lemma match_whole_space_complete (u n : list N) :
  u <> [] -> n <> [] ->
  forallb isSpaceChar u = true -> forallb isSpaceChar n = true ->
  exists c, match_whole re_space (u ++ str "/" ++ n) = Some c.
Proof.
  intros Hu Hn Hpu Hpn. unfold match_whole, re_space. cbn [rmatch].
  set (inp := u ++ str "/" ++ n). eexists.
  apply (rmatch_Plus_longest inp isSpaceChar 0 u (str "/" ++ n));
    [reflexivity | exact Hu | exact Hpu | reflexivity |].
  cbn [Nat.add]. rewrite nth_error_skipn_0. unfold inp.
  rewrite drop_app_length. change (str "/" ++ n) with (47 :: n).
  cbv iota beta. rewrite N.eqb_refl.
  apply (rmatch_Plus_longest _ isSpaceChar (S (length u)) n []);
    [ | exact Hn | exact Hpn | exact I | ].
  - rewrite app_nil_r, skipn_S_tl, drop_app_length. reflexivity.
  - replace (S (length u) + length n)%nat with (length (u ++ 47 :: n)).
    + rewrite Nat.eqb_refl. reflexivity.
    + rewrite length_app. cbn. lia.
Qed.

(** X18: [validateSpaceFormat] accepts exactly the strings of the form
    user/name in which both parts have at least two characters, all of them
    letters, digits, underscores or hyphens; a value that is not given is
    refused. *)
Theorem validateSpaceFormat_spec space :
  validateSpaceFormat space = true
  <-> exists u n,
        space = Some (u ++ str "/" ++ n)
        /\ forallb isSpaceChar u = true /\ forallb isSpaceChar n = true
        /\ (2 <= length u)%nat /\ (2 <= length n)%nat.
Proof.
  unfold validateSpaceFormat. split.
  - destruct space as [s|]; [|discriminate].
    destruct (truthy s); [|discriminate].
    destruct (match_whole re_space s) as [c|] eqn:E; [|discriminate].
    apply match_whole_space_sound in E as (u & n & -> & Hu & Hn).
    change (str "/" ++ n) with (47 :: n).
    rewrite split_app, (split_whole 47 u (isSpaceChar_notSlash u Hu)),
      (split_whole 47 n (isSpaceChar_notSlash n Hn)).
    cbn [app length nth Nat.eqb andb]. intros H.
    apply andb_true_iff in H as [H1 H2].
    apply Nat.leb_le in H1, H2. exists u, n. repeat split; assumption.
  - intros (u & n & -> & Hu & Hn & Hlu & Hln).
    assert (Hu0 : u <> []) by (destruct u; [cbn in Hlu; lia | discriminate]).
    assert (Hn0 : n <> []) by (destruct n; [cbn in Hln; lia | discriminate]).
    destruct (match_whole_space_complete u n Hu0 Hn0 Hu Hn) as [c ->].
    replace (truthy (u ++ str "/" ++ n)) with true
      by (destruct u; [congruence | reflexivity]).
    change (str "/" ++ n) with (47 :: n).
    rewrite split_app, (split_whole 47 u (isSpaceChar_notSlash u Hu)),
      (split_whole 47 n (isSpaceChar_notSlash n Hn)).
    cbn [app length nth Nat.eqb andb].
    apply andb_true_iff. split; apply Nat.leb_le; assumption.
Qed.

(** X18 at "tencent/Hunyuan3D-2". *)
Lemma validateSpaceFormat_spec_witness :
  validateSpaceFormat (Some (str "tencent/Hunyuan3D-2")) = true.
Proof.
  apply validateSpaceFormat_spec.
  exists (str "tencent"), (str "Hunyuan3D-2").
  repeat split; cbn; lia.
Defined.

(* ===================================================================== *)
(** * Listing resources *)
(* ===================================================================== *)

Lemma typeFilter_typed ty rest :
  ty <> [] -> noSlash ty = true -> oneLine rest = true ->
  typeFilter (Some (str "asset://" ++ ty ++ str "/" ++ rest)) = Some ty.
Proof.
  intros Hty Hns Hol. unfold typeFilter.
  change (truthy (str "asset://" ++ ty ++ str "/" ++ rest)) with true.
  cbv iota. unfold match_whole, re_template. cbn [rmatch].
  rewrite (rmatch_Lit _ _ 0 (ty ++ str "/" ++ rest)); [|reflexivity].
  change (0 + length (str "asset://"))%nat with 8%nat.
  set (inp := str "asset://" ++ ty ++ str "/" ++ rest).
  erewrite (rmatch_Plus_longest inp notSlash 8 ty (str "/" ++ rest));
    [ | reflexivity | exact Hty | exact Hns | reflexivity | ].
  2:{ rewrite nth_error_skipn_0.
      change (skipn (8 + length ty) inp)
        with (skipn (length ty) (ty ++ str "/" ++ rest)).
      rewrite drop_app_length.
      change (str "/" ++ rest) with (47 :: rest). cbv iota beta.
      rewrite N.eqb_refl.
      apply backoff_first.
      change (skipn (S (8 + length ty)) inp)
        with (skipn (S (length ty)) (ty ++ 47 :: rest)).
      rewrite skipn_S_tl, drop_app_length. cbn [tl].
      rewrite (run_len_forallb dot rest Hol).
      replace (S (8 + length ty) + length rest)%nat with (length inp).
      - rewrite Nat.eqb_refl. reflexivity.
      - unfold inp. rewrite !length_app. cbn. lia. }
  cbn [group Nat.eqb].
  replace (8 + length ty - 8)%nat with (length ty) by lia.
  change (skipn 8 inp) with (ty ++ str "/" ++ rest).
  rewrite take_app_length. reflexivity.
Qed.

Lemma typeFilter_plain t :
  noSlash t = true -> typeFilter (Some (str "asset://" ++ t)) = None.
Proof.
  intros Hns. unfold typeFilter.
  change (truthy (str "asset://" ++ t)) with true.
  cbv iota. unfold match_whole, re_template. cbn [rmatch].
  rewrite (rmatch_Lit _ _ 0 t); [|reflexivity].
  change (0 + length (str "asset://"))%nat with 8%nat.
  set (inp := str "asset://" ++ t).
  rewrite rmatch_Plus_none; [reflexivity|].
  intros m _. rewrite nth_error_skipn_0.
  change (skipn (8 + m) inp) with (skipn m t).
  rewrite <- nth_error_skipn_0.
  destruct (nth_error t m) as [x|] eqn:E; [|reflexivity].
  rewrite (nth_error_noSlash t m x Hns E). reflexivity.
Qed.

(** X19: a list request with a template asset://type/... lists exactly the
    files whose asset type (the part of the file name before the first
    underscore, 'unknown' when that is empty) is that type; a request
    without a template, or with a template asset://... that has no slash
    after the scheme, lists every file. *)
Theorem listResources_filters_by_type ty rest files :
  noSlash ty = true -> oneLine rest = true ->
  (ty <> [] ->
   listResources (Some (str "asset://" ++ ty ++ str "/" ++ rest)) files
   = List.filter (fun r => str_eqb (r_assetType r) ty)
       (List.map toResource files))
  /\ listResources (Some (str "asset://" ++ ty)) files
     = List.map toResource files
  /\ listResources None files = List.map toResource files.
Proof.
  intros Hns Hol. repeat split.
  - intros Hty. unfold listResources.
    rewrite (typeFilter_typed ty rest Hty Hns Hol).
    destruct ty; [congruence | reflexivity].
  - unfold listResources. rewrite (typeFilter_plain ty Hns). reflexivity.
Qed.

(** X19 at the type "3d" and two files. *)
Lemma listResources_filters_by_type_witness :
  List.map r_name
    (listResources (Some (str "asset://3d/{id}"))
       [mkFile (str "3d_model_a.glb") (str "2025") 10;
        mkFile (str "2d_asset_b.png") (str "2025") 20])
  = [str "3d_model_a.glb"].
Proof.
  destruct (listResources_filters_by_type (str "3d") (str "{id}")
              [mkFile (str "3d_model_a.glb") (str "2025") 10;
               mkFile (str "2d_asset_b.png") (str "2025") 20]
              eq_refl eq_refl) as (H & _).
  assert (H3 : str "3d" <> []) by discriminate.
  exact (f_equal (List.map r_name) (H H3)).
Defined.

(* ===================================================================== *)
(** * Exponential backoff *)
(* ===================================================================== *)






(* ===================================================================== *)
(** * Retrying and the operation logs *)
(* ===================================================================== *)

Lemma waitingAdded_same id s s' :
  operationUpdates s' = operationUpdates s -> waitingAdded id s s'.
Proof.
  intros E k. rewrite E. destruct (operationUpdates s !! k) as [l|];
    [|reflexivity].
  exists []. rewrite app_nil_r. auto.
Qed.

Lemma waitingAdded_trans id s1 s2 s3 :
  waitingAdded id s1 s2 -> waitingAdded id s2 s3 -> waitingAdded id s1 s3.
Proof.
  intros H12 H23 k. specialize (H12 k). specialize (H23 k).
  destruct (operationUpdates s1 !! k) as [l|].
  - destruct H12 as (a1 & E1 & W1 & F1). rewrite E1 in H23.
    destruct H23 as (a2 & E2 & W2 & F2).
    exists (a1 ++ a2). rewrite E2, app_assoc, forallb_app, W1, W2.
    repeat split. intros Hk. rewrite (F1 Hk), (F2 Hk). reflexivity.
  - rewrite H12 in H23. exact H23.
Qed.

Lemma waitingAdded_pushWaiting id retries maxRetries waitTime s :
  waitingAdded id s
    (pushWaiting id (waitingUpdate retries maxRetries waitTime) s).
Proof.
  unfold pushWaiting.
  destruct id as [id|]; [|apply waitingAdded_same; reflexivity].
  destruct (truthy id); [|apply waitingAdded_same; reflexivity].
  destruct (operationUpdates s !! id) as [l|] eqn:El;
    [|apply waitingAdded_same; reflexivity].
  intros k. cbn [operationUpdates set_operationUpdates].
  destruct (decide (k = id)) as [->|Hk].
  - rewrite lookup_insert_eq, El.
    exists [waitingUpdate retries maxRetries waitTime].
    repeat split. congruence.
  - rewrite lookup_insert_ne by congruence.
    destruct (operationUpdates s !! k) as [l'|]; [|reflexivity].
    exists []. rewrite app_nil_r. auto.
Qed.

Lemma waitingAdded_wait id level retries maxRetries waitTime ms s :
  waitingAdded id s
    (sleep ms
       (pushWaiting id (waitingUpdate retries maxRetries waitTime)
          (log level s))).
Proof.
  eapply waitingAdded_trans; [apply (waitingAdded_same id s (log level s));
                               reflexivity|].
  eapply waitingAdded_trans; [apply waitingAdded_pushWaiting|].
  apply waitingAdded_same. reflexivity.
Qed.

Lemma waitingAdded_Monolith_wait e id retries maxRetries delay s :
  waitingAdded id s
    (snd (Monolith.waitAfterFailure e id retries maxRetries delay s)).
Proof.
  unfold Monolith.waitAfterFailure.
  destruct (gpuQuotaMatch (message e)); [|destruct (Monolith.mentionsQuota _)];
    cbn [snd]; try apply waitingAdded_wait.
  apply waitingAdded_same. reflexivity.
Qed.

Lemma waitingAdded_Utils_wait e id retries maxRetries delay s :
  waitingAdded id s
    (snd (Utils.waitAfterFailure e id retries maxRetries delay s)).
Proof.
  unfold Utils.waitAfterFailure. cbn [snd]. apply waitingAdded_wait.
Qed.

Lemma waitingAdded_Monolith_loop {A} (operation : nat -> Outcome A) id
  maxRetries fuel :
  forall attempt retries delay s r s',
    Monolith.retryLoop fuel operation id maxRetries attempt retries delay s
    = Some (r, s') ->
    waitingAdded id s s'.
Proof.
  induction fuel as [|fuel IH]; intros attempt retries delay s r s';
    cbn [Monolith.retryLoop]; [discriminate|].
  destruct (operation attempt) as [v|e].
  - intros H. injection H as _ <-. apply waitingAdded_same; reflexivity.
  - destruct (maxRetries <? retries + 1)%Z.
    + intros H. injection H as _ <-. apply waitingAdded_same; reflexivity.
    + pose proof (waitingAdded_Monolith_wait e id (retries + 1) maxRetries
                    delay s) as Hw.
      destruct (Monolith.waitAfterFailure e id (retries + 1) maxRetries
                  delay s) as [delay' s1].
      intros H. apply IH in H. eapply waitingAdded_trans; eassumption.
Qed.

Lemma waitingAdded_Utils_loop {A} (operation : nat -> Outcome A) id
  maxRetries fuel :
  forall attempt retries delay s r s',
    Utils.retryLoop fuel operation id maxRetries attempt retries delay s
    = Some (r, s') ->
    waitingAdded id s s'.
Proof.
  induction fuel as [|fuel IH]; intros attempt retries delay s r s';
    cbn [Utils.retryLoop]; [discriminate|].
  destruct (retries <=? maxRetries)%Z.
  2:{ intros H. injection H as _ <-. apply waitingAdded_same; reflexivity. }
  destruct (operation attempt) as [v|e].
  - intros H. injection H as _ <-. apply waitingAdded_same; reflexivity.
  - destruct (maxRetries <? retries + 1)%Z.
    + intros H. injection H as _ <-. apply waitingAdded_same; reflexivity.
    + pose proof (waitingAdded_Utils_wait e id (retries + 1) maxRetries
                    delay s) as Hw.
      destruct (Utils.waitAfterFailure e id (retries + 1) maxRetries
                  delay s) as [delay' s1].
      intros H. apply IH in H. eapply waitingAdded_trans; eassumption.
Qed.

(** X21: however a retry run of either copy ends, it has registered no
    operation and removed no log entry; all it has added are WAITING
    entries at the end of the log of its own operation, and nothing at all
    when it was given no operation id or an id that has no log. *)
Theorem retry_adds_only_waiting_entries {A} (operation : nat -> Outcome A)
  operationId maxRetries initialDelay s fuel r s' :
  Monolith.retryWithBackoff fuel operation operationId maxRetries
    initialDelay s = Some (r, s')
  \/ Utils.retryWithBackoff fuel operation operationId maxRetries
       initialDelay s = Some (r, s') ->
  waitingAdded operationId s s'
  /\ (operationId = None
      \/ (exists id, operationId = Some id
                     /\ operationUpdates s !! id = None) ->
      operationUpdates s' = operationUpdates s).
Proof.
  intros H.
  assert (Hw : waitingAdded operationId s s').
  { destruct H as [H|H];
      [eapply waitingAdded_Monolith_loop | eapply waitingAdded_Utils_loop];
      exact H. }
  split; [exact Hw|].
  intros Hid. apply map_eq. intros k. specialize (Hw k).
  destruct (operationUpdates s !! k) as [l|] eqn:El; [|exact Hw].
  destruct Hw as (a & Ea & _ & Hf). rewrite Ea, Hf, app_nil_r; [reflexivity|].
  destruct Hid as [->|(id & -> & Hid)]; [discriminate|].
  intros E. injection E as ->. congruence.
Qed.

(** X21 at a run that waits once on the quota of operation "3D-1". *)
Lemma retry_adds_only_waiting_entries_witness :
  exists r s',
    Monolith.retryWithBackoff 3 (flaky 1 quotaMessage) (Some (str "3D-1")) 3
      5000 (logged 1) = Some (r, s')
    /\ waitingAdded (Some (str "3D-1")) (logged 1) s'.
Proof.
  destruct (Monolith.retryWithBackoff 3 (flaky 1 quotaMessage)
              (Some (str "3D-1")) 3 5000 (logged 1))
    as [[r s']|] eqn:E; [|vm_compute in E; discriminate].
  exists r, s'. split; [reflexivity|].
  apply (retry_adds_only_waiting_entries _ _ _ _ _ _ _ _ (or_introl E)).
Defined.

(* ===================================================================== *)
(** * The logger on its own *)
(* ===================================================================== *)

Lemma updatesOf_logOperation_other tool id status details s k :
  k <> id -> updatesOf k (logOperation tool id status details s)
             = updatesOf k s.
Proof.
  intros Hk. unfold updatesOf, logOperation. cbn.
  rewrite lookup_insert_ne by congruence. reflexivity.
Qed.

Lemma logsBounded_same s s' :
  operationUpdates s' = operationUpdates s -> logsBounded s -> logsBounded s'.
Proof. intros E H k. unfold updatesOf. rewrite E. apply H. Qed.

Lemma logsBounded_logOperation tool id status details s :
  logsBounded s -> logsBounded (logOperation tool id status details s).
Proof.
  intros H k. destruct (decide (k = id)) as [->|Hk].
  - apply logOperation_bounded, H.
  - rewrite updatesOf_logOperation_other by exact Hk. apply H.
Qed.

Lemma logsBounded_loggerCall s c :
  logsBounded s -> logsBounded (loggerCall s c).
Proof.
  intros H. destruct c as [level|tool id status details|st rs cx e id];
    cbn [loggerCall].
  - exact (logsBounded_same s _ eq_refl H).
  - apply logsBounded_logOperation, H.
  - unfold logDetailedError. apply logsBounded_logOperation.
    destruct st, rs, cx; exact (logsBounded_same s _ eq_refl H).
Qed.

(** X22: as long as only the logger writes them, the operation logs stay
    within 100 entries each, whatever is logged and in whatever order:
    plain lines, operation updates and detailed errors. *)
Theorem logger_keeps_logs_bounded calls s :
  logsBounded s -> logsBounded (fold_left loggerCall calls s).
Proof.
  revert s. induction calls as [|c calls IH]; intros s H; [exact H|].
  cbn [fold_left]. apply IH, logsBounded_loggerCall, H.
Qed.

(** X22 at 150 updates of one operation, starting without any log. *)
Lemma logger_keeps_logs_bounded_witness :
  logsBounded
    (fold_left loggerCall
       (repeat (CallLogOperation (str "generate_3d_asset") (str "3D-1")
                  (str "PROCESSING") []) 150)
       sys0).
Proof.
  apply logger_keeps_logs_bounded.
  intros k. unfold updatesOf, sys0. cbn [operationUpdates].
  rewrite lookup_empty. cbn. lia.
Defined.

(* ===================================================================== *)
(** * From the environment to the model parameters *)
(* ===================================================================== *)

Lemma clamp_range lo hi x : (lo <= hi)%Z -> (lo <= clamp lo hi x <= hi)%Z.
Proof. unfold clamp. lia. Qed.

Lemma validateNumericRange_range value lo hi d z :
  (lo <= hi)%Z -> validateNumericRange value lo hi d = Some z ->
  (lo <= z <= hi)%Z \/ d = Some z.
Proof.
  intros Hlh. unfold validateNumericRange.
  destruct value as [[|n]|]; auto.
  destruct (Z.ltb_spec n lo); [intros E; injection E as <-; lia|].
  destruct (Z.ltb_spec hi n); intros E; injection E as <-; lia.
Qed.

Lemma loadConfig_seed toLowerCase env z :
  model3dSeed (loadConfig toLowerCase env) = Some z ->
  (0 <= z <= 10000000)%Z.
Proof.
  cbn [loadConfig model3dSeed].
  destruct (truthy_opt (MODEL_3D_SEED env)); [|discriminate].
  intros H. apply validateNumericRange_range in H; [|lia].
  destruct H as [H|H]; [exact H | discriminate].
Qed.

Lemma numberOr_seed toLowerCase env :
  (1 <= numberOr (model3dSeed (loadConfig toLowerCase env)) 1234
   <= 10000000)%Z.
Proof.
  unfold numberOr.
  destruct (model3dSeed (loadConfig toLowerCase env)) as [z|] eqn:E; [|lia].
  apply loadConfig_seed in E. destruct (Z.eqb_spec z 0); lia.
Qed.

(** X23: whatever the environment holds, the parameters sent to the model
    are within their ranges: Hunyuan3D gets between 20 and 50 steps, the
    mini-turbo variant between 1 and 100 steps and an octree resolution
    between 16 and 512, both a seed between 1 and 10000000; InstantMesh gets
    a seed between 0 and 10000000 and between 30 and 75 steps, unless the
    configured step count is not a number, which is passed on as it is. *)
Theorem workflow_parameters_in_range toLowerCase env :
  let config := loadConfig toLowerCase env in
  stepsWithin 20 50 (p_steps (hunyuan3dParams config))
  /\ (1 <= p_seed (hunyuan3dParams config) <= 10000000)%Z
  /\ stepsWithin 1 100 (p_steps (miniTurboParams config))
  /\ (1 <= p_seed (miniTurboParams config) <= 10000000)%Z
  /\ (exists o, p_octree (miniTurboParams config) = Some o
                /\ (16 <= o <= 512)%Z)
  /\ (p_steps (instantMeshParams config) = NaN
      \/ stepsWithin 30 75 (p_steps (instantMeshParams config)))
  /\ (0 <= p_seed (instantMeshParams config) <= 10000000)%Z.
Proof.
  intros config. unfold config.
  split; [apply clamp_range; lia|].
  split; [apply numberOr_seed|].
  split; [apply clamp_range; lia|].
  split; [apply numberOr_seed|].
  split; [eexists; split; [reflexivity | apply clamp_range; lia]|].
  split.
  - cbn [instantMeshParams p_steps].
    destruct (model3dSteps (loadConfig toLowerCase env)) as [[|z]|];
      [left; reflexivity | right; apply clamp_range; lia
      | right; apply clamp_range; lia].
  - cbn [instantMeshParams p_seed].
    destruct (model3dSeed (loadConfig toLowerCase env)) as [z|] eqn:E; [|lia].
    apply loadConfig_seed in E. exact E.
Qed.

(** X24: a configured value that JavaScript takes for false is treated
    differently by the workflows.  A step count that does not parse makes
    the Hunyuan3D workflows fall back to their defaults (20; 5, 10 or 20
    by mode) but reaches InstantMesh as NaN; a seed that parses to 0 is
    replaced by 1234 in the Hunyuan3D workflows but is sent as 0 by
    InstantMesh. *)
Theorem falsy_settings_differ toLowerCase env :
  let config := loadConfig toLowerCase env in
  (forall v,
     MODEL_3D_STEPS env = Some v -> truthy v = true -> parseIntOf v = NaN ->
     p_steps (hunyuan3dParams config) = Int 20
     /\ In (p_steps (miniTurboParams config)) [Int 5; Int 10; Int 20]
     /\ p_steps (instantMeshParams config) = NaN)
  /\ (forall v,
        MODEL_3D_SEED env = Some v -> truthy v = true ->
        parseIntOf v = Int 0 ->
        p_seed (hunyuan3dParams config) = 1234%Z
        /\ p_seed (miniTurboParams config) = 1234%Z
        /\ p_seed (instantMeshParams config) = 0%Z).
Proof.
  intros config. split.
  - intros v E Hv Hp.
    assert (Hs : model3dSteps config = Some NaN).
    { unfold config. cbn [loadConfig model3dSteps]. rewrite E. cbn. rewrite Hv.
      rewrite Hp. reflexivity. }
    repeat split.
    + cbn [hunyuan3dParams p_steps]. rewrite Hs. reflexivity.
    + cbn [miniTurboParams p_steps]. rewrite Hs. cbn [intOr].
      destruct (str_eqb (miniTurboMode config) (str "Turbo"));
        [left; reflexivity|].
      destruct (str_eqb (miniTurboMode config) (str "Fast"));
        [right; left; reflexivity | right; right; left; reflexivity].
    + cbn [instantMeshParams p_steps]. rewrite Hs. reflexivity.
  - intros v E Hv Hp.
    assert (Hs : model3dSeed config = Some 0%Z).
    { unfold config. cbn [loadConfig model3dSeed]. rewrite E. cbn. rewrite Hv.
      rewrite Hp. reflexivity. }
    repeat split.
    + cbn [hunyuan3dParams p_seed]. rewrite Hs. reflexivity.
    + cbn [miniTurboParams p_seed]. rewrite Hs. reflexivity.
    + cbn [instantMeshParams p_seed]. rewrite Hs. reflexivity.
Qed.

(** X24 at MODEL_3D_STEPS=fast and MODEL_3D_SEED=0. *)
Lemma falsy_settings_differ_witness :
  let config :=
    loadConfig lowerAscii
      (mkEnvironment (Some (str "fast")) None (Some (str "0")) None None
         None) in
  p_steps (hunyuan3dParams config) = Int 20
  /\ p_steps (instantMeshParams config) = NaN
  /\ p_seed (hunyuan3dParams config) = 1234%Z
  /\ p_seed (instantMeshParams config) = 0%Z.
Proof.
  destruct (falsy_settings_differ lowerAscii
              (mkEnvironment (Some (str "fast")) None (Some (str "0")) None
                 None None)) as [Hsteps Hseed].
  destruct (Hsteps (str "fast") eq_refl eq_refl eq_refl) as (H1 & _ & H2).
  destruct (Hseed (str "0") eq_refl eq_refl eq_refl) as (H3 & _ & H4).
  repeat split; assumption.
Defined.

(* ===================================================================== *)
(** * From the chosen space type to the workflow *)
(* ===================================================================== *)

Lemma validateEnum_allowed value allowed v :
  validateEnum value allowed None = Some v -> In v allowed.
Proof.
  unfold validateEnum. destruct value as [x|]; [|discriminate].
  destruct (arr_includes allowed x) eqn:E; [|discriminate].
  intros H. injection H as <-. apply arr_includes_In. exact E.
Qed.

Lemma knownSpaceTypes_values t :
  In t knownSpaceTypes -> In t SPACE_TYPE.values.
Proof.
  unfold knownSpaceTypes, SPACE_TYPE.values. cbn. tauto.
Qed.

Lemma chooseSpaceType_values toLowerCase env view_api modelSpace t :
  chooseSpaceType toLowerCase env view_api modelSpace = Returned t ->
  In t SPACE_TYPE.values.
Proof.
  unfold chooseSpaceType.
  destruct (modelSpaceType (loadConfig toLowerCase env)) as [m|] eqn:Em.
  - cbn [truthy_opt default]. destruct (truthy m).
    + intros H. injection H as <-.
      apply (validateEnum_allowed (MODEL_SPACE_TYPE env)). exact Em.
    + clear Em. revert t. 
      destruct (noValidOverride toLowerCase (MODEL_SPACE_TYPE env)) eqn:En.
      * intros t.
        destruct (detection_known_or_error toLowerCase (MODEL_SPACE_TYPE env)
                    view_api modelSpace SPACE_TYPE.UNKNOWN En)
          as [(t' & -> & Hin)|(e & ->)]; cbn [fst]; [|discriminate].
        intros H. injection H as <-. apply knownSpaceTypes_values, Hin.
      * intros t. unfold noValidOverride in En. apply negb_false_iff in En.
        unfold detectSpaceType. rewrite En. cbn [fst].
        apply andb_true_iff in En as [_ En].
        intros H. injection H as <-. apply arr_includes_In. exact En.
  - cbn [truthy_opt].
    destruct (noValidOverride toLowerCase (MODEL_SPACE_TYPE env)) eqn:En.
    + destruct (detection_known_or_error toLowerCase (MODEL_SPACE_TYPE env)
                  view_api modelSpace SPACE_TYPE.UNKNOWN En)
        as [(t' & -> & Hin)|(e & ->)]; cbn [fst]; [|discriminate].
      intros H. injection H as <-. apply knownSpaceTypes_values, Hin.
    + unfold noValidOverride in En. apply negb_false_iff in En.
      unfold detectSpaceType. rewrite En. cbn [fst].
      apply andb_true_iff in En as [_ En].
      intros H. injection H as <-. apply arr_includes_In. exact En.
Qed.

(** X25: the space type that initialisation settles on, from the
    configuration or by detection, is one of the four values of
    [SPACE_TYPE]; handed to [process3dAsset] with an assets directory and a
    tool name, the first three run the workflow of that name, and 'unknown'
    makes it throw 'Unsupported space type: unknown'. *)
Theorem chosen_space_type_dispatch {P R} toLowerCase env view_api modelSpace t
  (processInstantMesh processHunyuan3d processHunyuan3dMiniTurbo
     : P -> Completion R)
  assetsDir toolName params :
  chooseSpaceType toLowerCase env view_api modelSpace = Returned t ->
  truthy assetsDir = true -> truthy toolName = true ->
  let r :=
    process3dAsset processInstantMesh processHunyuan3d
      processHunyuan3dMiniTurbo (Some assetsDir) (Some toolName) (Some t)
      params in
  (t = SPACE_TYPE.INSTANTMESH /\ r = processInstantMesh params)
  \/ (t = SPACE_TYPE.HUNYUAN3D /\ r = processHunyuan3d params)
  \/ (t = SPACE_TYPE.HUNYUAN3D_MINI_TURBO
      /\ r = processHunyuan3dMiniTurbo params)
  \/ (t = SPACE_TYPE.UNKNOWN
      /\ r = thrown (str "Unsupported space type: unknown")).
Proof.
  intros Ht Ha Hn r. apply chooseSpaceType_values in Ht.
  unfold r, process3dAsset. cbn [truthy_opt]. rewrite Ha, Hn.
  cbn [negb]. unfold SPACE_TYPE.values in Ht. cbn [In] in Ht.
  destruct Ht as [<-|[<-|[<-|[<-|[]]]]].
  - left. split; reflexivity.
  - right. left. split; reflexivity.
  - right. right. left. split; reflexivity.
  - right. right. right. split; reflexivity.
Qed.

(** X25 at MODEL_SPACE_TYPE=unknown. *)
Lemma chosen_space_type_dispatch_witness :
  process3dAsset (P := unit) (R := unit) (fun _ => ReturnedUndefined)
    (fun _ => ReturnedUndefined) (fun _ => ReturnedUndefined)
    (Some (str "assets")) (Some (str "generate_3d_asset"))
    (Some (str "unknown")) tt
  = thrown (str "Unsupported space type: unknown").
Proof.
  destruct (chosen_space_type_dispatch (P := unit) (R := unit) lowerAscii
              (mkEnvironment None None None None None (Some (str "unknown")))
              (Resolved ApiFalsy) (str "tencent/Hunyuan3D-2") (str "unknown")
              (fun _ => ReturnedUndefined) (fun _ => ReturnedUndefined)
              (fun _ => ReturnedUndefined)
              (str "assets") (str "generate_3d_asset") tt
              eq_refl eq_refl eq_refl)
    as [[E _]|[[E _]|[[E _]|[_ H]]]]; try discriminate E.
  exact H.
Defined.

(* ===================================================================== *)
(** * A negative retry bound *)
(* ===================================================================== *)

(** X26: with a negative [maxRetries] the two copies differ: [index.js]
    runs the operation once and returns its result or throws its error,
    [src/utils.js] does not run it at all and returns undefined; neither
    sleeps or logs. *)
Theorem negative_bound_runs_once_or_never {A} (operation : nat -> Outcome A)
  operationId maxRetries initialDelay s fuel :
  (maxRetries < 0)%Z -> (0 < fuel)%nat ->
  Monolith.retryWithBackoff fuel operation operationId maxRetries
    initialDelay s
  = Some (match operation O with
          | Resolved v => Returned v
          | Rejected e => Thrown e
          end, s)
  /\ Utils.retryWithBackoff fuel operation operationId maxRetries
       initialDelay s
     = Some (ReturnedUndefined, s).
Proof.
  intros Hm Hf. destruct fuel as [|fuel]; [lia|].
  unfold Monolith.retryWithBackoff, Utils.retryWithBackoff.
  cbn [Monolith.retryLoop Utils.retryLoop]. split.
  - destruct (operation O); [reflexivity|].
    destruct (Z.ltb_spec maxRetries (0 + 1)); [reflexivity | lia].
  - destruct (Z.leb_spec 0 maxRetries); [lia | reflexivity].
Qed.

(** X26 at [maxRetries = -1] and an operation that would succeed. *)
Lemma negative_bound_runs_once_or_never_witness :
  Monolith.retryWithBackoff 1 (flaky 0 "never") None (-1) 5000 sys0
  = Some (Returned tt, sys0)
  /\ Utils.retryWithBackoff 1 (flaky 0 "never") None (-1) 5000 sys0
     = Some (ReturnedUndefined, sys0).
Proof.
  apply (negative_bound_runs_once_or_never (flaky 0 "never")); lia.
Defined.
